(** * Assessment session controller: WAT and SRT practice pages

    Shallow embedding of the session logic of the word-association page
    (timed, 15 s per word, with pause, progress store and save retries), of
    the situation-reaction page (untimed, wall-clock bookkeeping, minimum
    length checks), and of the earlier word-association page that is still
    kept in the tree.

    Conventions.
    - A React component is modelled by a record of its state cells.  An event
      handler reads the cells of the render it was created in and issues
      setter calls; here it is a function from the record to the record.
    - [useEffect] bodies are functions of the same shape; [commit] runs them
      in declaration order after a handler, as React does after a render.
    - JavaScript numbers that occur in the logic are integers (indices,
      seconds, millisecond timestamps) and are modelled by [Z].
    - Text is modelled by [string]; white space is the ASCII white space. *)

From Stdlib Require Import ZArith Lia String Ascii List Bool DecimalString.
From stdpp Require Import base strings list gmap.
From Equations Require Import Equations.
Import ListNotations.

Set Warnings "-register-all".
Local Open Scope string_scope.
Local Open Scope Z_scope.

(** ** JavaScript values used by the pages *)

Module JS.

(** [\s] restricted to ASCII: tab, line feed, vertical tab, form feed,
    carriage return, space. *)
Definition is_ws (c : ascii) : bool :=
  let n := nat_of_ascii c in
  ((9 <=? n)%nat && (n <=? 13)%nat) || (n =? 32)%nat.

Fixpoint trimStart (s : string) : string :=
  match s with
  | String c r => if is_ws c then trimStart r else s
  | EmptyString => EmptyString
  end.

(** [String.prototype.trimEnd], by recursion from the right end. *)
Fixpoint trimEnd (s : string) : string :=
  match s with
  | EmptyString => EmptyString
  | String c r =>
      match trimEnd r with
      | EmptyString => if is_ws c then EmptyString else String c EmptyString
      | r' => String c r'
      end
  end.

(** [String.prototype.trim]. *)
Definition trim (s : string) : string := trimEnd (trimStart s).

(** Truthiness of a string: the empty string is the only falsy one. *)
Definition truthy (s : string) : bool :=
  match s with EmptyString => false | _ => true end.

(** [s.split(/\s+/).filter(word => word.length > 0)]: the maximal runs of
    characters that are not white space.  [cur] is the run being read. *)
Fixpoint split_ws_go (cur : option string) (s : string) : list string :=
  match s with
  | EmptyString => match cur with Some w => [String.rev w] | None => [] end
  | String c r =>
      if is_ws c
      then match cur with
           | Some w => String.rev w :: split_ws_go None r
           | None => split_ws_go None r
           end
      else split_ws_go (Some (String c (default EmptyString cur))) r
  end.

Definition split_ws_nonempty (s : string) : list string := split_ws_go None s.

(** Decimal text of an integer, as a template literal prints it. *)
Definition number_to_string (z : Z) : string :=
  NilZero.string_of_int (Z.to_int z).

(** [arr[i]] for a number [i]: [undefined] outside the array. *)
Definition at_index {A : Type} (l : list A) (i : Z) : option A :=
  if 0 <=? i then l !! Z.to_nat i else None.

(** [arr.length] and [str.length] as numbers. *)
Definition len {A : Type} (l : list A) : Z := Z.of_nat (length l).
Definition strlen (s : string) : Z := Z.of_nat (String.length s).

(** [Math.max(0, x)] and [Math.floor(x / 1000)] on integers. *)
Definition max0 (x : Z) : Z := Z.max 0 x.
Definition floor_div_1000 (x : Z) : Z := x / 1000.

End JS.

(** ** JSON documents *)

(** The values [JSON.parse] produces.  Numbers are integers: the pages store
    and send nothing else.  Object members are kept in document order. *)
Inductive JSON : Type :=
| JNull
| JBool (b : bool)
| JNum (z : Z)
| JStr (s : string)
| JArr (l : list JSON)
| JObj (members : list (string * JSON)).

(** Property read [v.k] on a parsed document.  [None] is [undefined].  The
    later of two members with one key wins, as in [JSON.parse].  Reading a
    property of [null] throws; callers test for [JNull] first. *)
Fixpoint assoc_last (k : string) (ms : list (string * JSON)) : option JSON :=
  match ms with
  | [] => None
  | (k', v) :: r =>
      match assoc_last k r with
      | Some v' => Some v'
      | None => if String.eqb k k' then Some v else None
      end
  end.

Definition get_prop (v : JSON) (k : string) : option JSON :=
  match v with
  | JObj ms => assoc_last k ms
  | _ => None
  end.

(** The platform's [JSON.stringify] and [JSON.parse].  [JSON_parse] returns
    [None] where the platform throws a [SyntaxError]. *)
Class JsonCodec : Type := {
  JSON_stringify : JSON -> string;
  JSON_parse : string -> option JSON
}.

(** ** A reference codec

    A printer and a recursive-descent parser for the JSON fragment the pages
    write: objects, arrays, strings, integers, [true], [false], [null].  It is
    the instance the examples below are evaluated with; the general results
    are stated for every [JsonCodec]. *)

Module RefCodec.

Definition hex_digit (n : nat) : ascii :=
  ascii_of_nat (if (n <? 10)%nat then 48 + n else 87 + n)%nat.

(** Escaping as [JSON.stringify] does it: short escapes for the quote, the
    backslash and the five named control characters, [\u00XX] for the other
    control characters. *)
Definition escape_char (c : ascii) : string :=
  let n := nat_of_ascii c in
  if (n =? 34)%nat then "\" ++ String c ""
  else if (n =? 92)%nat then "\\"
  else if (n =? 8)%nat then "\b"
  else if (n =? 9)%nat then "\t"
  else if (n =? 10)%nat then "\n"
  else if (n =? 12)%nat then "\f"
  else if (n =? 13)%nat then "\r"
  else if (n <? 32)%nat
       then "\u00" ++ String (hex_digit (n / 16)) (String (hex_digit (n mod 16)) "")
  else String c "".

Fixpoint escape (s : string) : string :=
  match s with
  | EmptyString => EmptyString
  | String c r => escape_char c ++ escape r
  end.

Definition dquote : ascii := ascii_of_nat 34.

Definition quote (s : string) : string :=
  String dquote (escape s ++ String dquote "").

Fixpoint print (v : JSON) : string :=
  match v with
  | JNull => "null"
  | JBool true => "true"
  | JBool false => "false"
  | JNum z => JS.number_to_string z
  | JStr s => quote s
  | JArr l =>
      "[" ++ (fix elems (l : list JSON) : string :=
                match l with
                | [] => ""
                | [x] => print x
                | x :: r => print x ++ "," ++ elems r
                end) l ++ "]"
  | JObj ms =>
      "{" ++ (fix membs (ms : list (string * JSON)) : string :=
                match ms with
                | [] => ""
                | [(k, x)] => quote k ++ ":" ++ print x
                | (k, x) :: r => quote k ++ ":" ++ print x ++ "," ++ membs r
                end) ms ++ "}"
  end.

(** *** Parser *)

Definition is_json_ws (c : ascii) : bool :=
  let n := nat_of_ascii c in
  (n =? 32)%nat || (n =? 9)%nat || (n =? 10)%nat || (n =? 13)%nat.

Fixpoint skip_ws (s : string) : string :=
  match s with
  | String c r => if is_json_ws c then skip_ws r else s
  | EmptyString => EmptyString
  end.

Definition digit_val (c : ascii) : option Z :=
  let n := nat_of_ascii c in
  if ((48 <=? n) && (n <=? 57))%nat then Some (Z.of_nat (n - 48)) else None.

Definition hex_val (c : ascii) : option nat :=
  let n := nat_of_ascii c in
  if ((48 <=? n) && (n <=? 57))%nat then Some (n - 48)%nat
  else if ((97 <=? n) && (n <=? 102))%nat then Some (n - 87)%nat
  else if ((65 <=? n) && (n <=? 70))%nat then Some (n - 55)%nat
  else None.

Definition is_digit (c : ascii) : bool :=
  match digit_val c with Some _ => true | None => false end.

(** Strips [pre] from the front of [s]. *)
Fixpoint expect (pre s : string) : option string :=
  match pre, s with
  | EmptyString, _ => Some s
  | String a p, String b r => if Ascii.eqb a b then expect p r else None
  | String _ _, EmptyString => None
  end.

(** Reads the digits that follow; [acc] is the value read so far. *)
Fixpoint digits (acc : Z) (s : string) : Z * string :=
  match s with
  | String c r =>
      match digit_val c with
      | Some d => digits (10 * acc + d) r
      | None => (acc, s)
      end
  | EmptyString => (acc, s)
  end.

(** An integer without sign: a single [0], or a digit from 1 to 9 followed
    by digits.  A fraction or an exponent is outside the fragment. *)
Definition parse_nat (s : string) : option (Z * string) :=
  match s with
  | String c r =>
      match digit_val c with
      | Some 0 =>
          match r with
          | String c' _ =>
              if is_digit c' || Ascii.eqb c' "." || Ascii.eqb c' "e" || Ascii.eqb c' "E"
              then None else Some (0, r)
          | EmptyString => Some (0, r)
          end
      | Some d =>
          let '(z, r') := digits d r in
          match r' with
          | String c' _ =>
              if Ascii.eqb c' "." || Ascii.eqb c' "e" || Ascii.eqb c' "E"
              then None else Some (z, r')
          | EmptyString => Some (z, r')
          end
      | None => None
      end
  | EmptyString => None
  end.

(** The characters of a string literal after its opening quote, up to
    and without the closing quote.  [\uXXXX] is read for code points below
    128. *)
Fixpoint parse_chars (s : string) : option (string * string) :=
  match s with
  | EmptyString => None
  | String c r =>
      let n := nat_of_ascii c in
      if (n =? 34)%nat then Some (EmptyString, r)
      else if (n <? 32)%nat then None
      else if (n =? 92)%nat then
        match r with
        | String e r1 =>
            let m := nat_of_ascii e in
            let lit (x : nat) :=
              match parse_chars r1 with
              | Some (t, r') => Some (String (ascii_of_nat x) t, r')
              | None => None
              end in
            if (m =? 34)%nat then lit 34%nat
            else if (m =? 92)%nat then lit 92%nat
            else if (m =? 47)%nat then lit 47%nat
            else if (m =? 98)%nat then lit 8%nat
            else if (m =? 102)%nat then lit 12%nat
            else if (m =? 110)%nat then lit 10%nat
            else if (m =? 114)%nat then lit 13%nat
            else if (m =? 116)%nat then lit 9%nat
            else if (m =? 117)%nat then
              match r1 with
              | String h1 (String h2 (String h3 (String h4 r2))) =>
                  match hex_val h1, hex_val h2, hex_val h3, hex_val h4 with
                  | Some a, Some b, Some c', Some d =>
                      let code := (((a * 16 + b) * 16 + c') * 16 + d)%nat in
                      if (code <? 128)%nat
                      then match parse_chars r2 with
                           | Some (t, r') => Some (String (ascii_of_nat code) t, r')
                           | None => None
                           end
                      else None
                  | _, _, _, _ => None
                  end
              | _ => None
              end
            else None
        | EmptyString => None
        end
      else
        match parse_chars r with
        | Some (t, r') => Some (String c t, r')
        | None => None
        end
  end.

(** A value, the elements of an array after its bracket, the members of an
    object after its brace.  Each returns what it read and the rest of the
    input.  [fuel] bounds the nesting and the number of elements. *)
Fixpoint parse_value (fuel : nat) (s : string) : option (JSON * string) :=
  match fuel with
  | O => None
  | S f =>
      match skip_ws s with
      | EmptyString => None
      | String c r =>
          let n := nat_of_ascii c in
          if (n =? 110)%nat then r' ← expect "ull" r; Some (JNull, r')
          else if (n =? 116)%nat then r' ← expect "rue" r; Some (JBool true, r')
          else if (n =? 102)%nat then r' ← expect "alse" r; Some (JBool false, r')
          else if (n =? 34)%nat then '(t, r') ← parse_chars r; Some (JStr t, r')
          else if (n =? 45)%nat then '(z, r') ← parse_nat r; Some (JNum (- z), r')
          else if (n =? 91)%nat then
            match skip_ws r with
            | String c' r' =>
                if (nat_of_ascii c' =? 93)%nat then Some (JArr [], r')
                else '(l, r'') ← parse_elems f (String c' r'); Some (JArr l, r'')
            | EmptyString => None
            end
          else if (n =? 123)%nat then
            match skip_ws r with
            | String c' r' =>
                if (nat_of_ascii c' =? 125)%nat then Some (JObj [], r')
                else '(ms, r'') ← parse_membs f (String c' r'); Some (JObj ms, r'')
            | EmptyString => None
            end
          else '(z, r') ← parse_nat (String c r); Some (JNum z, r')
      end
  end
with parse_elems (fuel : nat) (s : string) : option (list JSON * string) :=
  match fuel with
  | O => None
  | S f =>
      '(v, r) ← parse_value f s;
      match skip_ws r with
      | String c r' =>
          if (nat_of_ascii c =? 44)%nat
          then '(l, r'') ← parse_elems f r'; Some (v :: l, r'')
          else if (nat_of_ascii c =? 93)%nat then Some ([v], r')
          else None
      | EmptyString => None
      end
  end
with parse_membs (fuel : nat) (s : string) : option (list (string * JSON) * string) :=
  match fuel with
  | O => None
  | S f =>
      match skip_ws s with
      | String q r0 =>
          if (nat_of_ascii q =? 34)%nat then
            '(k, r1) ← parse_chars r0;
            match skip_ws r1 with
            | String c1 r2 =>
                if (nat_of_ascii c1 =? 58)%nat then
                  '(v, r) ← parse_value f r2;
                  match skip_ws r with
                  | String c r' =>
                      if (nat_of_ascii c =? 44)%nat
                      then '(ms, r'') ← parse_membs f r'; Some ((k, v) :: ms, r'')
                      else if (nat_of_ascii c =? 125)%nat then Some ([(k, v)], r')
                      else None
                  | EmptyString => None
                  end
                else None
            | EmptyString => None
            end
          else None
      | EmptyString => None
      end
  end.

(** A document is one value with nothing but white space after it. *)
Definition parse (s : string) : option JSON :=
  '(v, r) ← parse_value (2 * String.length s + 2) s;
  match skip_ws r with
  | EmptyString => Some v
  | String _ _ => None
  end.

#[export] Instance codec : JsonCodec :=
  {| JSON_stringify := print; JSON_parse := parse |}.

End RefCodec.

(** ** The progress store and the collaborators *)

(** [sessionStorage]: string keys, string values. *)
Abbreviation Storage := (gmap string string).

(** What the prompt source answered.  [FetchRejected]: [fetch] itself rejects
    (the source is unreachable).  Otherwise a response arrived, with its [ok]
    flag, its status code and its body; [BodyError] is a body on which
    [response.json()] rejects. *)
Inductive Body : Type :=
| BodyError (message : string)
| BodyJSON (data : JSON).

Inductive FetchOutcome : Type :=
| FetchRejected (message : string)
| FetchResponse (ok : bool) (status : Z) (body : Body).

(** Message of the [TypeError] raised by reading a property of [null]. *)
Definition TypeError_null_message (prop : string) : string :=
  "Cannot read properties of null (reading '" ++ prop ++ "')".

(** Documents whose elements are all strings, as a [string[]]. *)
Fixpoint strings_of_json (l : list JSON) : option (list string) :=
  match l with
  | [] => Some []
  | JStr x :: r => ws ← strings_of_json r; Some (x :: ws)
  | _ :: _ => None
  end.

(** ** The word-association page (timed) *)

Module Wat.

Inductive TestState : Type := ready | running | paused | finished.

#[global] Instance TestState_eq_dec : EqDecision TestState.
Proof. solve_decision. Defined.

(** One captured answer.  [word] is [words[currentWordIndex]], which is
    [undefined] ([None]) when the index is outside the array. *)
Record Response : Type := mkResponse {
  word : option string;
  response : string;
  timeSpent : Z
}.

(** The persisted snapshot (interface [TestProgress]). *)
Record TestProgress : Type := mkTestProgress {
  tp_currentWordIndex : Z;
  tp_allResponses : list Response;
  tp_timeLeft : Z;
  tp_words : list string
}.

(** The state cells of [WatTestPage].  [timerActive] stands for the
    interval held in [timerRef]: [true] while it is set and not cleared.
    The cells of the analysis report are left out: no handler below reads
    them. *)
Record State : Type := mkState {
  testState : TestState;
  words : list string;
  currentWordIndex : Z;
  timeLeft : Z;
  currentResponse : string;
  allResponses : list Response;
  sessionId : option Z;
  isSaving : bool;
  error : option string;
  timerActive : bool
}.

Definition init : State :=
  {| testState := ready; words := []; currentWordIndex := 0; timeLeft := 15;
     currentResponse := ""; allResponses := []; sessionId := None;
     isSaving := false; error := None; timerActive := false |}.

(** Setters. *)
Definition setTestState (v : TestState) (s : State) : State :=
  mkState v (words s) (currentWordIndex s) (timeLeft s) (currentResponse s)
    (allResponses s) (sessionId s) (isSaving s) (error s) (timerActive s).
Definition setWords (v : list string) (s : State) : State :=
  mkState (testState s) v (currentWordIndex s) (timeLeft s) (currentResponse s)
    (allResponses s) (sessionId s) (isSaving s) (error s) (timerActive s).
Definition setCurrentWordIndex (v : Z) (s : State) : State :=
  mkState (testState s) (words s) v (timeLeft s) (currentResponse s)
    (allResponses s) (sessionId s) (isSaving s) (error s) (timerActive s).
Definition setTimeLeft (v : Z) (s : State) : State :=
  mkState (testState s) (words s) (currentWordIndex s) v (currentResponse s)
    (allResponses s) (sessionId s) (isSaving s) (error s) (timerActive s).
Definition setCurrentResponse (v : string) (s : State) : State :=
  mkState (testState s) (words s) (currentWordIndex s) (timeLeft s) v
    (allResponses s) (sessionId s) (isSaving s) (error s) (timerActive s).
Definition setAllResponses (v : list Response) (s : State) : State :=
  mkState (testState s) (words s) (currentWordIndex s) (timeLeft s) (currentResponse s)
    v (sessionId s) (isSaving s) (error s) (timerActive s).
Definition setSessionId (v : option Z) (s : State) : State :=
  mkState (testState s) (words s) (currentWordIndex s) (timeLeft s) (currentResponse s)
    (allResponses s) v (isSaving s) (error s) (timerActive s).
Definition setIsSaving (v : bool) (s : State) : State :=
  mkState (testState s) (words s) (currentWordIndex s) (timeLeft s) (currentResponse s)
    (allResponses s) (sessionId s) v (error s) (timerActive s).
Definition setError (v : option string) (s : State) : State :=
  mkState (testState s) (words s) (currentWordIndex s) (timeLeft s) (currentResponse s)
    (allResponses s) (sessionId s) (isSaving s) v (timerActive s).
Definition setTimerActive (v : bool) (s : State) : State :=
  mkState (testState s) (words s) (currentWordIndex s) (timeLeft s) (currentResponse s)
    (allResponses s) (sessionId s) (isSaving s) (error s) v.

(** *** Snapshots as JSON documents *)

(** A member whose value is [undefined] is not written. *)
Definition Response_to_json (r : Response) : JSON :=
  JObj ((match word r with Some w => [("word", JStr w)] | None => [] end)
        ++ [("response", JStr (response r)); ("timeSpent", JNum (timeSpent r))])%list.

Definition TestProgress_to_json (p : TestProgress) : JSON :=
  JObj [("currentWordIndex", JNum (tp_currentWordIndex p));
        ("allResponses", JArr (map Response_to_json (tp_allResponses p)));
        ("timeLeft", JNum (tp_timeLeft p));
        ("words", JArr (map JStr (tp_words p)))].

(** The documents that are objects of the declared response type. *)
Definition Response_of_json (v : JSON) : option Response :=
  match v with
  | JObj [("word", JStr w); ("response", JStr r); ("timeSpent", JNum t)] =>
      Some (mkResponse (Some w) r t)
  | JObj [("response", JStr r); ("timeSpent", JNum t)] =>
      Some (mkResponse None r t)
  | _ => None
  end.

Fixpoint Responses_of_json (l : list JSON) : option (list Response) :=
  match l with
  | [] => Some []
  | v :: r => x ← Response_of_json v; xs ← Responses_of_json r; Some (x :: xs)
  end.

Definition key : string := "wat-progress".

(** The four property reads of [loadSavedProgress], before any typing. *)
Record RawProgress : Type := mkRaw {
  raw_words : option JSON;
  raw_currentWordIndex : option JSON;
  raw_allResponses : option JSON;
  raw_timeLeft : option JSON
}.

(** The values of a [RawProgress] at the declared types of the cells.
    [None]: some cell would receive a value outside its type. *)
Definition typed (raw : RawProgress) : option TestProgress :=
  match raw_words raw, raw_currentWordIndex raw, raw_allResponses raw, raw_timeLeft raw with
  | Some (JArr ws), Some (JNum i), Some (JArr rs), Some (JNum t) =>
      ws' ← strings_of_json ws; rs' ← Responses_of_json rs;
      Some (mkTestProgress i rs' t ws')
  | _, _, _, _ => None
  end.

(** A stored text deserializes to a valid snapshot when it parses and the
    parsed document has the four members at their declared types. *)
Definition deserialize `{JsonCodec} (saved : string) : option TestProgress :=
  v ← JSON_parse saved;
  typed (mkRaw (get_prop v "words") (get_prop v "currentWordIndex")
               (get_prop v "allResponses") (get_prop v "timeLeft")).

(** *** Handlers and effects, in the order of the source *)

(** What a handler leaves behind.  [Next]: the new cells and store.
    [Submit]: the same, and [saveSessionAndFinish] was called with
    [payload] from this render.  [IllTyped]: a cell received a value
    outside its declared type; the typed model stops there. *)
Inductive Result : Type :=
| Next (s : State) (st : Storage)
| Submit (s : State) (st : Storage) (payload : list Response)
| IllTyped.

Section Handlers.
Context `{JsonCodec}.

Definition snapshot (s : State) : TestProgress :=
  mkTestProgress (currentWordIndex s) (allResponses s) (timeLeft s) (words s).

(** The auto-save effect.  It is written as run after every render.  In a
    session that is followed from a page load this is what the effect does:
    the store then holds the snapshot of the last render, so a run with
    unchanged dependencies would store the text that is already there. *)
Definition autoSave (s : State) (st : Storage) : Storage :=
  if decide (testState s = running)
  then <[key := JSON_stringify (TestProgress_to_json (snapshot s))]> st
  else st.

(** [loadSavedProgress]: [LoadedTrue raw] stands for the four setter
    calls with the values [raw] followed by [return true];
    [LoadedFalse st'] for [return false] with the store left as [st']. *)
Inductive Loaded : Type :=
| LoadedTrue (raw : RawProgress)
| LoadedFalse (st' : Storage).

Definition loadSavedProgress (st : Storage) : Loaded :=
  match st !! key with
  | Some saved =>
      if JS.truthy saved then
        match JSON_parse saved with
        | None => LoadedFalse (delete key st)
        | Some JNull => LoadedFalse (delete key st)
        | Some v =>
            LoadedTrue (mkRaw (get_prop v "words") (get_prop v "currentWordIndex")
                              (get_prop v "allResponses") (get_prop v "timeLeft"))
        end
      else LoadedFalse st
  | None => LoadedFalse st
  end.

Definition clearSavedProgress (st : Storage) : Storage := delete key st.

Definition startTimer (s : State) : State := setTimerActive true s.

(** The interval callback. *)
Definition tick (s : State) : State :=
  if timeLeft s <=? 1
  then setTimeLeft 0 (setTimerActive false s)
  else setTimeLeft (timeLeft s - 1) s.

Definition pauseTimer (s : State) : State := setTimerActive false s.

Definition resumeTimer (s : State) : State :=
  if decide (testState s = paused)
  then setTestState running (startTimer s)
  else s.

(** [handleWordComplete].  The second component is the argument of the
    call to [saveSessionAndFinish], when there is one. *)
Definition handleWordComplete (s : State) : State * option (list Response) :=
  let timeSpent := JS.max0 (15 - timeLeft s) in
  let newResponse :=
    mkResponse (JS.at_index (words s) (currentWordIndex s))
               (JS.trim (currentResponse s)) timeSpent in
  let newResponses := (allResponses s ++ [newResponse])%list in
  let s1 := setCurrentResponse "" (setAllResponses newResponses s) in
  if currentWordIndex s =? JS.len (words s) - 1
  then (s1, Some newResponses)
  else (startTimer (setTimeLeft 15 (setCurrentWordIndex (currentWordIndex s + 1) s1)),
        None).

(** The condition of the auto-advance effect. *)
Definition autoAdvance_due (s : State) : bool :=
  bool_decide (testState s = running) && (timeLeft s <=? 0) && (0 <? JS.len (words s)).

(** The [try] block of [startTest] up to the validity test: the array to
    install, or the message of the error that is thrown. *)
Definition fetched_words (o : FetchOutcome) : string + list JSON :=
  match o with
  | FetchRejected m => inl m
  | FetchResponse false status _ =>
      inl ("HTTP " ++ JS.number_to_string status ++ ": Failed to fetch test data")
  | FetchResponse true _ (BodyError m) => inl m
  | FetchResponse true _ (BodyJSON JNull) => inl (TypeError_null_message "words")
  | FetchResponse true _ (BodyJSON data) =>
      match get_prop data "words" with
      | Some (JArr (x :: l)) => inr (x :: l)
      | _ => inl "Invalid test data received"
      end
  end.

(** The part of [startTest] after the resume question. *)
Definition startFresh (fetched : FetchOutcome) (s : State) (st : Storage)
  : option (State * Storage) :=
  let s1 := setIsSaving false (setTimeLeft 15 (setCurrentResponse ""
              (setCurrentWordIndex 0 (setAllResponses [] s)))) in
  match fetched_words fetched with
  | inr l =>
      ws ← strings_of_json l;
      Some (startTimer (setTestState running (setWords ws s1)), st)
  | inl errorMessage =>
      Some (setError (Some ("Could not start the test: " ++ errorMessage)) s1, st)
  end.

(** The setter calls of [loadSavedProgress] at the types of the cells. *)
Definition restore (p : TestProgress) (s : State) : State :=
  setTimeLeft (tp_timeLeft p) (setAllResponses (tp_allResponses p)
    (setCurrentWordIndex (tp_currentWordIndex p) (setWords (tp_words p) s))).

(** [startTest].  [confirmResume] is the answer to [window.confirm],
    which is asked only when [loadSavedProgress] returned [true]. *)
Definition startTest (confirmResume : bool) (fetched : FetchOutcome)
    (s : State) (st : Storage) : option (State * Storage) :=
  let s0 := setSessionId None (setError None s) in
  match loadSavedProgress st with
  | LoadedTrue raw =>
      p ← typed raw;
      if confirmResume
      then Some (startTimer (setTestState running (restore p s0)), st)
      else startFresh fetched (restore p s0) (clearSavedProgress st)
  | LoadedFalse st' => startFresh fetched s0 st'
  end.

(** [handleKeyPress], the listener on [window]. *)
Definition handleKeyPress (k : string) (ctrlKey : bool) (s : State)
  : State * option (list Response) :=
  match testState s with
  | running =>
      if String.eqb k "Escape" then (pauseTimer (setTestState paused s), None)
      else if String.eqb k "Enter" && ctrlKey && JS.truthy (JS.trim (currentResponse s))
           then handleWordComplete s
           else (s, None)
  | paused => if String.eqb k "Enter" then (resumeTimer s, None) else (s, None)
  | _ => (s, None)
  end.

(** *** Events *)

(** Which of the five returns of the render function is taken. *)
Inductive Screen : Type :=
  ReadyScreen | PausedScreen | FinishedScreen | LoadingScreen | TestScreen.

Definition screen (s : State) : Screen :=
  match testState s with
  | ready => ReadyScreen
  | paused => PausedScreen
  | finished => FinishedScreen
  | running => match words s with [] => LoadingScreen | _ :: _ => TestScreen end
  end.

Inductive Event : Type :=
| ClickStart (confirmResume : bool) (fetched : FetchOutcome)
| ClickDismiss
| Input (value : string)
| KeyDown (k : string) (ctrlKey : bool)
| ClickPause
| ClickNext
| ClickSubmit
| ClickResume
| Tick.

Definition after (st : Storage) (r : State * option (list Response)) : Result :=
  match r with
  | (s, Some payload) => Submit s st payload
  | (s, None) => Next s st
  end.

(** The handler an event reaches.  A control that the current screen does
    not show, or shows disabled, receives nothing. *)
Definition dispatch (e : Event) (s : State) (st : Storage) : Result :=
  match e, screen s with
  | ClickStart c f, ReadyScreen =>
      if isSaving s then Next s st
      else match startTest c f s st with
           | Some (s', st') => Next s' st'
           | None => IllTyped
           end
  | ClickDismiss, ReadyScreen =>
      match error s with Some _ => Next (setError None s) st | None => Next s st end
  | Input v, TestScreen => Next (setCurrentResponse v s) st
  | KeyDown k c, _ => after st (handleKeyPress k c s)
  | ClickPause, TestScreen => Next (pauseTimer (setTestState paused s)) st
  | ClickNext, TestScreen =>
      if JS.truthy (JS.trim (currentResponse s))
      then after st (handleWordComplete s) else Next s st
  | ClickSubmit, TestScreen =>
      if negb (JS.truthy (JS.trim (currentResponse s))) || isSaving s
      then Next s st else after st (handleWordComplete s)
  | ClickResume, PausedScreen => Next (resumeTimer s) st
  | Tick, _ => if timerActive s then Next (tick s) st else Next s st
  | _, _ => Next s st
  end.

(** The effects that follow the render after a handler: auto-save, then
    auto-advance, whose own render is followed by auto-save again.  After
    an advance that is not the last one [timeLeft] is 15, so auto-advance
    is not due a second time.  After the advance on the last word the
    responses have been handed over and the description of the session
    ends; what the page does from there is the subject of
    [saveSessionAndFinish]. *)
Definition commit (r : Result) : Result :=
  match r with
  | Next s st =>
      let st1 := autoSave s st in
      if autoAdvance_due s
      then match handleWordComplete s with
           | (s', Some payload) => Submit s' (autoSave s' st1) payload
           | (s', None) => Next s' (autoSave s' st1)
           end
      else Next s st1
  | Submit s st payload => Submit s (autoSave s st) payload
  | IllTyped => IllTyped
  end.

Definition step (e : Event) (s : State) (st : Storage) : Result :=
  commit (dispatch e s st).

(** A session up to the call that hands the responses over. *)
Fixpoint run (evs : list Event) (s : State) (st : Storage) : Result :=
  match evs with
  | [] => Next s st
  | e :: evs' =>
      match step e s st with
      | Next s' st' => run evs' s' st'
      | r => r
      end
  end.

End Handlers.

(** *** Saving the finished session *)

(** The Submission Client, seen from the page: the outcome of its [n]-th
    call (authentication and [POST] together).  [SaveOk id] is a 2xx answer
    carrying [data.id]; [SaveError message] is any way of failing, with the
    message of the error that reaches the [catch] block. *)
Inductive SaveOutcome : Type :=
| SaveOk (id : Z)
| SaveError (message : string).

Definition SubmissionClient : Type := nat -> list Response -> SaveOutcome.

(** What the page does to the outside, in the order it does it. *)
Inductive IO : Type :=
| Post (payload : list Response) (outcome : SaveOutcome)
| Sleep (ms : Z).

Fixpoint attempts (l : list IO) : list SaveOutcome :=
  match l with
  | [] => []
  | Post _ o :: r => o :: attempts r
  | Sleep _ :: r => attempts r
  end.

Definition is_ok (o : SaveOutcome) : bool :=
  match o with SaveOk _ => true | SaveError _ => false end.

Record Sys : Type := mkSys {
  ui : State;
  store : Storage;
  log : list IO
}.

(** [saveSessionAndFinish].  [isSaving_seen] is the value of [isSaving] in
    the render that created the callback; the retry scheduled with
    [setTimeout] calls the same callback, hence sees the same value.  The
    chain of attempts is taken without other events in between. *)
Equations? saveSessionAndFinish (client : SubmissionClient) (isSaving_seen : bool)
    (finalResponses : list Response) (retryCount : nat) (σ : Sys) : Sys
    by wf (3 - retryCount)%nat lt :=
  saveSessionAndFinish client true _ _ σ := σ;
  saveSessionAndFinish client false finalResponses retryCount σ
    with client (length (attempts (log σ))) finalResponses => {
    | SaveOk id :=
        mkSys (setIsSaving false (setTestState finished (setSessionId (Some id)
                 (setError None (setIsSaving true (ui σ))))))
              (clearSavedProgress (store σ))
              (log σ ++ [Post finalResponses (SaveOk id)])%list
    | SaveError m with decide (retryCount < 2)%nat => {
        | left _ :=
            saveSessionAndFinish client false finalResponses (retryCount + 1)
              (mkSys (setIsSaving false (setError (Some m)
                        (setError None (setIsSaving true (ui σ)))))
                     (store σ)
                     (log σ ++ [Post finalResponses (SaveError m); Sleep 2000])%list)
        | right _ :=
            mkSys (setIsSaving false (setError (Some m)
                     (setError None (setIsSaving true (ui σ)))))
                  (store σ)
                  (log σ ++ [Post finalResponses (SaveError m)])%list } }.
Proof. lia. Qed.


(** *** Predicates used in the statements *)

(** The changes a handler other than [startTest] and
    [handleWordComplete] makes. *)
Inductive minor (s : State) : State -> Prop :=
| minor_none : minor s s
| minor_input v : testState s = running -> minor s (setCurrentResponse v s)
| minor_pause : testState s = running -> minor s (pauseTimer (setTestState paused s))
| minor_resume : testState s = paused -> minor s (resumeTimer s)
| minor_tick : timerActive s = true -> minor s (tick s)
| minor_dismiss : testState s = ready -> minor s (setError None s).

(** The two ways [handleWordComplete] ends, seen after the effects. *)
Inductive advance_of `{JsonCodec} (s : State) (st : Storage) : Result -> Prop :=
| advance_next s' :
    handleWordComplete s = (s', None) ->
    advance_of s st (Next s' (autoSave s' st))
| advance_submit s' payload :
    handleWordComplete s = (s', Some payload) ->
    advance_of s st (Submit s' (autoSave s' st) payload).

(** The event is a click on "Start Test" that reaches [startTest]. *)
Definition starts (e : Event) (s : State) : Prop :=
  match e with
  | ClickStart _ _ => testState s = ready ∧ isSaving s = false
  | _ => False
  end.

(** As many responses as the index says. *)
Definition balanced (s : State) : Prop :=
  JS.len (allResponses s) = currentWordIndex s.

(** The cells after the advance on the last word, whose responses
    [payload] went to [saveSessionAndFinish]. *)
Definition handed_over (s : State) (payload : list Response) : Prop :=
  JS.len (allResponses s) = currentWordIndex s + 1
  ∧ currentWordIndex s + 1 = JS.len (words s)
  ∧ payload = allResponses s.

Definition settled (r : Result) : Prop :=
  match r with
  | Next s _ => balanced s ∧ testState s ≠ ready
  | Submit s _ payload => handed_over s payload
  | IllTyped => False
  end.


(** The responses a session ends with: those handed over, or those in the
    cells when the events run out. *)
Definition responses_of (r : Result) : option (list Response) :=
  match r with
  | Next s _ => Some (allResponses s)
  | Submit _ _ payload => Some payload
  | IllTyped => None
  end.

(** A session that is interrupted after [k] events: the page is loaded
    again, so the cells are those of [init] while the store is kept; the user
    presses "Start Test", answers yes to the resume question, and goes on with
    the remaining events. *)
Definition interrupted `{JsonCodec} (k : nat) (fetched : FetchOutcome)
    (evs : list Event) (s : State) (st : Storage) : Result :=
  match run (take k evs) s st with
  | Next _ st_k => run (ClickStart true fetched :: drop k evs) init st_k
  | r => r
  end.

(** The platform writes document [j] as a non-empty text and reads it
    back. *)
Definition round_trips `{JsonCodec} (j : JSON) : Prop :=
  JS.truthy (JSON_stringify j) = true ∧ JSON_parse (JSON_stringify j) = Some j.

(** A session under way with nothing being saved and the clock consistent
    with [testState]. *)
Definition steady (s : State) : Prop :=
  isSaving s = false ∧ error s = None ∧ sessionId s = None
  ∧ words s ≠ [] ∧ 0 < timeLeft s
  ∧ ((testState s = running ∧ timerActive s = true)
     ∨ (testState s = paused ∧ timerActive s = false)).

(** The store mirrors the cells of a running session. *)
Definition mirrored `{JsonCodec} (s : State) (st : Storage) : Prop :=
  testState s = running ->
  st !! key = Some (JSON_stringify (TestProgress_to_json (snapshot s))).

(** The cells a step ends in. *)
Definition state_of (r : Result) : option State :=
  match r with
  | Next s _ => Some s
  | Submit s _ _ => Some s
  | IllTyped => None
  end.

(** A page on its ready screen has an empty input and nothing in flight. *)
Definition untouched (s : State) : Prop :=
  testState s = ready -> currentResponse s = "" ∧ isSaving s = false.

(** The prompt source could not be reached, or answered with an error
    status, or with a body that is not JSON, or with a document whose [words]
    member is missing, not an array, or an empty array. *)
Definition fetch_failed (o : FetchOutcome) : Prop :=
  match o with
  | FetchRejected _ => True
  | FetchResponse false _ _ => True
  | FetchResponse true _ (BodyError _) => True
  | FetchResponse true _ (BodyJSON data) =>
      match get_prop data "words" with
      | Some (JArr (_ :: _)) => False
      | _ => True
      end
  end.

End Wat.

(** ** The situation-reaction page (untimed)

    The handlers that capture responses, with the effects that keep
    [wordCount] and [startTime].  Starting, persisting and saving follow the
    word-association page without its timer and are not repeated. *)

Module Srt.

Inductive TestState : Type := ready | running | finished.

#[global] Instance TestState_eq_dec : EqDecision TestState.
Proof. solve_decision. Defined.

Record Response : Type := mkResponse {
  situation : option string;
  response : string;
  timeSpent : Z
}.

Record State : Type := mkState {
  testState : TestState;
  situations : list string;
  currentSituationIndex : Z;
  currentResponse : string;
  allResponses : list Response;
  sessionId : option Z;
  isSaving : bool;
  error : option string;
  startTime : Z;
  wordCount : Z
}.

Definition setCurrentSituationIndex (v : Z) (s : State) : State :=
  mkState (testState s) (situations s) v (currentResponse s) (allResponses s)
    (sessionId s) (isSaving s) (error s) (startTime s) (wordCount s).
Definition setCurrentResponse (v : string) (s : State) : State :=
  mkState (testState s) (situations s) (currentSituationIndex s) v (allResponses s)
    (sessionId s) (isSaving s) (error s) (startTime s) (wordCount s).
Definition setAllResponses (v : list Response) (s : State) : State :=
  mkState (testState s) (situations s) (currentSituationIndex s) (currentResponse s) v
    (sessionId s) (isSaving s) (error s) (startTime s) (wordCount s).
Definition setStartTime (v : Z) (s : State) : State :=
  mkState (testState s) (situations s) (currentSituationIndex s) (currentResponse s)
    (allResponses s) (sessionId s) (isSaving s) (error s) v (wordCount s).
Definition setWordCount (v : Z) (s : State) : State :=
  mkState (testState s) (situations s) (currentSituationIndex s) (currentResponse s)
    (allResponses s) (sessionId s) (isSaving s) (error s) (startTime s) v.

Inductive Result : Type :=
| Next (s : State)
| Submit (s : State) (payload : list Response).

(** The word-count effect. *)
Definition wordCountEffect (s : State) : State :=
  setWordCount (JS.len (JS.split_ws_nonempty (JS.trim (currentResponse s)))) s.

(** The start-time effect: it runs when [currentSituationIndex] or
    [testState] differ from the render before; [now] is [Date.now()] then. *)
Definition startTimeEffect (before : State) (now : Z) (s : State) : State :=
  if bool_decide (currentSituationIndex s ≠ currentSituationIndex before
                  ∨ testState s ≠ testState before)
     && bool_decide (testState s = running)
  then setStartTime now s
  else s.

(** [isResponseValid]. *)
Definition isResponseValid (s : State) : bool :=
  (10 <=? JS.strlen (JS.trim (currentResponse s))) && (3 <=? wordCount s).

(** [handleNext]; [now] is [Date.now()] at the call. *)
Definition handleNext (now : Z) (s : State) : State * option (list Response) :=
  if isSaving s || negb (JS.truthy (JS.trim (currentResponse s))) then (s, None)
  else
    let timeSpent := JS.max0 (JS.floor_div_1000 (now - startTime s)) in
    let newResponse :=
      mkResponse (JS.at_index (situations s) (currentSituationIndex s))
                 (JS.trim (currentResponse s)) timeSpent in
    let newResponses := (allResponses s ++ [newResponse])%list in
    if currentSituationIndex s =? JS.len (situations s) - 1
    then (setAllResponses newResponses s, Some newResponses)
    else (setStartTime now (setCurrentSituationIndex (currentSituationIndex s + 1)
            (setCurrentResponse "" (setAllResponses newResponses s))), None).

(** [handleKeyPress], the listener on [window]. *)
Definition handleKeyPress (k : string) (ctrlKey : bool) (now : Z) (s : State)
  : State * option (list Response) :=
  match testState s with
  | running =>
      if String.eqb k "Enter" && ctrlKey && JS.truthy (JS.trim (currentResponse s))
      then handleNext now s
      else (s, None)
  | _ => (s, None)
  end.

Inductive Screen : Type := ReadyScreen | FinishedScreen | LoadingScreen | TestScreen.

Definition screen (s : State) : Screen :=
  match testState s with
  | ready => ReadyScreen
  | finished => FinishedScreen
  | running => match situations s with [] => LoadingScreen | _ :: _ => TestScreen end
  end.

Inductive Control : Type :=
| Input (value : string)
| KeyDown (k : string) (ctrlKey : bool)
| ClickNext.

(** An event: the control, [Date.now()] in its handler, and [Date.now()]
    when the effects of the following render run. *)
Record Event : Type := mkEvent {
  control : Control;
  handled_at : Z;
  effects_at : Z
}.

Definition after (r : State * option (list Response)) : Result :=
  match r with
  | (s, Some payload) => Submit s payload
  | (s, None) => Next s
  end.

(** The button is disabled unless the response is valid and nothing is
    being saved; the key listener is always attached. *)
Definition dispatch (e : Event) (s : State) : Result :=
  match control e, screen s with
  | Input v, TestScreen => Next (setCurrentResponse v s)
  | KeyDown k c, _ => after (handleKeyPress k c (handled_at e) s)
  | ClickNext, TestScreen =>
      if negb (isResponseValid s) || isSaving s then Next s
      else after (handleNext (handled_at e) s)
  | _, _ => Next s
  end.

Definition commit (before : State) (now : Z) (r : Result) : Result :=
  match r with
  | Next s => Next (startTimeEffect before now (wordCountEffect s))
  | Submit s payload => Submit (startTimeEffect before now (wordCountEffect s)) payload
  end.

Definition step (e : Event) (s : State) : Result :=
  commit s (effects_at e) (dispatch e s).

Fixpoint run (evs : list Event) (s : State) : Result :=
  match evs with
  | [] => Next s
  | e :: evs' =>
      match step e s with
      | Next s' => run evs' s'
      | r => r
      end
  end.


(** *** Predicates used in the statements *)

Definition balanced (s : State) : Prop :=
  JS.len (allResponses s) = currentSituationIndex s.

Definition handed_over (s : State) (payload : list Response) : Prop :=
  JS.len (allResponses s) = currentSituationIndex s + 1
  ∧ currentSituationIndex s + 1 = JS.len (situations s)
  ∧ payload = allResponses s.

Definition settled (r : Result) : Prop :=
  match r with
  | Next s => balanced s
  | Submit s payload => handed_over s payload
  end.

Definition state_of (r : Result) : State :=
  match r with
  | Next s => s
  | Submit s _ => s
  end.

End Srt.

(** ** The earlier word-association page

    Only [startTest] is needed.  [alert] calls are collected in a list. *)

Module OldWat.

Inductive TestState : Type := ready | running | finished.

Record Response : Type := mkResponse {
  word : option string;
  response : string
}.

Record State : Type := mkState {
  testState : TestState;
  words : list string;
  currentWordIndex : Z;
  timeLeft : Z;
  currentResponse : string;
  allResponses : list Response;
  sessionId : option Z
}.

Definition init : State :=
  {| testState := ready; words := []; currentWordIndex := 0; timeLeft := 15;
     currentResponse := ""; allResponses := []; sessionId := None |}.

Definition alert_text : string :=
  "Could not start the test. Ensure your backend is running and the API URL is correct.".

(** What [data.words] is after [await response.json()]: [inl tt] when
    something in the [try] block throws, otherwise the value handed to
    [setWords] ([None] for [undefined]).  The [ok] flag is not looked at. *)
Definition fetched_words (o : FetchOutcome) : unit + option JSON :=
  match o with
  | FetchRejected _ => inl tt
  | FetchResponse _ _ (BodyError _) => inl tt
  | FetchResponse _ _ (BodyJSON JNull) => inl tt
  | FetchResponse _ _ (BodyJSON data) => inr (get_prop data "words")
  end.

(** [startTest]: the new cells and the alerts shown.  [None]: [words]
    received a value that is not a [string[]]. *)
Definition startTest (fetched : FetchOutcome) (s : State) : option (State * list string) :=
  let s1 := mkState running (words s) 0 15 "" [] None in
  match fetched_words fetched with
  | inr (Some (JArr l)) =>
      ws ← strings_of_json l;
      Some (mkState (testState s1) ws (currentWordIndex s1) (timeLeft s1)
              (currentResponse s1) (allResponses s1) (sessionId s1), [])
  | inr _ => None
  | inl _ =>
      Some (mkState ready (words s1) (currentWordIndex s1) (timeLeft s1)
              (currentResponse s1) (allResponses s1) (sessionId s1), [alert_text])
  end.

End OldWat.

(** ** Sample sessions *)

Module Examples.

Definition fire_river : list string := ["Fire"; "River"].

(** The second of two words is showing, three seconds after it came up, with
    an answer typed. *)
Definition on_river : Wat.State :=
  Wat.mkState Wat.running fire_river 1 12 "bridge"
    [Wat.mkResponse (Some "Fire") "Fire truck" 3] None false None true.

Definition river_payload : list Wat.Response :=
  [Wat.mkResponse (Some "Fire") "Fire truck" 3; Wat.mkResponse (Some "River") "bridge" 3].

Definition river_done : Wat.State :=
  Wat.mkState Wat.running fire_river 1 12 "" river_payload None false None true.


Definition third_time : Wat.SubmissionClient :=
  fun n _ =>
    match n with
    | 2%nat => Wat.SaveOk 42
    | _ => Wat.SaveError "HTTP 503: Failed to save session"
    end.

(** A situation is showing and "ok" has been typed: one word, two
    characters. *)
Definition short_answer : Srt.State :=
  Srt.mkState Srt.running ["You miss the last bus."; "Your friend is hurt."] 0 "ok" []
    None false None 1000 1.

Definition short_answer_taken : Srt.State :=
  Srt.mkState Srt.running ["You miss the last bus."; "Your friend is hurt."] 1 ""
    [Srt.mkResponse (Some "You miss the last bus.") "ok" 4] None false None 5001 0.

Definition ctrl_enter (now : Z) : Srt.Event :=
  Srt.mkEvent (Srt.KeyDown "Enter" true) now (now + 1).

Definition click_next (now : Z) : Srt.Event :=
  Srt.mkEvent Srt.ClickNext now (now + 1).

(** One word; the session has just started. *)
Definition on_fire : Wat.State :=
  Wat.mkState Wat.running ["Fire"] 0 15 "" [] None false None true.

Definition fire_fetched : FetchOutcome :=
  FetchResponse true 200 (BodyJSON (JObj [("words", JArr [JStr "Fire"])])).

Definition type_then_submit : list Wat.Event :=
  [Wat.Input "Fire truck"; Wat.KeyDown "Enter" true].

Definition tick_type_submit : list Wat.Event :=
  [Wat.Tick; Wat.Tick; Wat.Input "Fire truck"; Wat.KeyDown "Enter" true].

(** The prompt source answers 200 with an empty list of words. *)
Definition empty_fetched : FetchOutcome :=
  FetchResponse true 200 (BodyJSON (JObj [("words", JArr [])])).

End Examples.

(** ** Further predicates and event sequences for the word-association page *)

Module WatMore.
Import Wat.

(** The index points at a word, and the responses so far are for the words
    before it, in order. *)
Definition in_order (s : State) : Prop :=
  0 <= currentWordIndex s < JS.len (words s)
  ∧ map word (allResponses s)
    = map Some (take (Z.to_nat (currentWordIndex s)) (words s)).


(** A pause of [n] seconds, by the buttons or by the keys. *)
Definition pause_by_buttons (n : nat) : list Event :=
  (ClickPause :: repeat Tick n ++ [ClickResume])%list.

Definition pause_by_keys (n : nat) : list Event :=
  (KeyDown "Escape" false :: repeat Tick n ++ [KeyDown "Enter" false])%list.

(** The store a step leaves. *)
Definition store_of (r : Result) : option Storage :=
  match r with
  | Next _ st => Some st
  | Submit _ st _ => Some st
  | IllTyped => None
  end.

(** The log of one chain of attempts with payload [p], from the answers
    the attempts received: two seconds between an attempt and the next. *)
Fixpoint posts (p : list Response) (outs : list SaveOutcome) : list IO :=
  match outs with
  | [] => []
  | [o] => [Post p o]
  | o :: r => Post p o :: Sleep 2000 :: posts p r
  end.

(** The answers the client gives from its [n]-th call on. *)
Definition answers (client : SubmissionClient) (p : list Response) (n : nat)
    (outs : list SaveOutcome) : Prop :=
  ∀ i o, outs !! i = Some o -> o = client (n + i)%nat p.

(** Every attempt but the last one failed. *)
Definition failed_before_last (outs : list SaveOutcome) : Prop :=
  ∀ i o, outs !! i = Some o -> (S i < length outs)%nat -> is_ok o = false.

(** The state of the page and the store after a chain that received
    [outs], seen from the cells [u] and the store [st] before it. *)
Definition chain_end (u : State) (st : Storage) (outs : list SaveOutcome)
    (σ' : Sys) : Prop :=
  match last outs with
  | Some (SaveOk id) =>
      ui σ' = setTestState finished (setSessionId (Some id)
                (setError None (setIsSaving false u)))
      ∧ store σ' = delete key st
  | Some (SaveError m) =>
      ui σ' = setError (Some m) (setIsSaving false u) ∧ store σ' = st
  | None => False
  end.

End WatMore.

(** ** Asking for the analysis

    [handleAnalysis] is the same function on the current word-association
    page and on the situation-reaction page. *)

Module Analysis.

(** The cells the handler reads and writes.  [analysis] holds a document
    or [null] ([JNull]); [None] stands for [undefined], which
    [result.analysis] is when the answer has no such member. *)
Record Cells : Type := mkCells {
  sessionId : option Z;
  analysis : option JSON;
  isAnalyzing : bool;
  error : option string
}.

Definition setAnalysis (v : option JSON) (c : Cells) : Cells :=
  mkCells (sessionId c) v (isAnalyzing c) (error c).
Definition setIsAnalyzing (v : bool) (c : Cells) : Cells :=
  mkCells (sessionId c) (analysis c) v (error c).
Definition setError (v : option string) (c : Cells) : Cells :=
  mkCells (sessionId c) (analysis c) (isAnalyzing c) v.

(** The analysis service, seen from the page: the outcome of its [n]-th
    call for session [id] (authentication and [POST] together).
    [Received a] is a 2xx answer whose document has [a] as [analysis];
    [Failed message] is any way of failing, with the message of the error
    that reaches the [catch] block. *)
Inductive Outcome : Type :=
| Received (a : option JSON)
| Failed (message : string).

Definition Client : Type := nat -> Z -> Outcome.

Inductive IO : Type :=
| Post (id : Z) (outcome : Outcome)
| Sleep (ms : Z).

Fixpoint requests (l : list IO) : list Outcome :=
  match l with
  | [] => []
  | Post _ o :: r => o :: requests r
  | Sleep _ :: r => requests r
  end.

Record Sys : Type := mkSys {
  ui : Cells;
  log : list IO
}.

(** [!sessionId]. *)
Definition no_session (v : option Z) : bool :=
  match v with
  | None => true
  | Some id => id =? 0
  end.

(** The three setter calls before the [try] block. *)
Definition begin (c : Cells) : Cells :=
  setError None (setAnalysis (Some JNull) (setIsAnalyzing true c)).

(** [handleAnalysis].  The chain of attempts is taken without other events
    in between. *)
Equations? handleAnalysis (client : Client) (retryCount : nat) (σ : Sys) : Sys
    by wf (2 - retryCount)%nat lt :=
  handleAnalysis client retryCount σ with sessionId (ui σ) => {
    | None := σ
    | Some id with id =? 0 => {
      | true := σ
      | false with client (length (requests (log σ))) id => {
        | Received a :=
            mkSys (setIsAnalyzing false (setAnalysis a (begin (ui σ))))
                  (log σ ++ [Post id (Received a)])%list
        | Failed m with decide (retryCount < 1)%nat => {
          | left _ :=
              handleAnalysis client (retryCount + 1)
                (mkSys (setIsAnalyzing false (setError (Some m) (begin (ui σ))))
                       (log σ ++ [Post id (Failed m); Sleep 3000])%list)
          | right _ :=
              mkSys (setIsAnalyzing false (setError (Some m) (begin (ui σ))))
                    (log σ ++ [Post id (Failed m)])%list } } } }.
Proof. lia. Qed.

(** The log of one chain of requests for session [id], from the answers
    received: three seconds between a request and the next. *)
Fixpoint posts (id : Z) (outs : list Outcome) : list IO :=
  match outs with
  | [] => []
  | [o] => [Post id o]
  | o :: r => Post id o :: Sleep 3000 :: posts id r
  end.

(** What a chain that received [outs] leaves in the cells: the analysis
    of the first answer that carries one, or the error of the second
    failure. *)
Definition chain_end (outs : list Outcome) (c : Cells) : Prop :=
  match outs with
  | [Received a] | [Failed _; Received a] => analysis c = a ∧ error c = None
  | [Failed _; Failed m] => analysis c = Some JNull ∧ error c = Some m
  | _ => False
  end.

(** The button "Analyze My Responses" is shown on the finished screen
    while there is no analysis and none is being fetched. *)
Definition button_shown (c : Cells) : bool :=
  negb (match analysis c with
        | None | Some JNull => false
        | Some _ => true
        end) && negb (isAnalyzing c).

End Analysis.

(** ** The earlier word-association page: a whole session

    The page has no keys and no buttons on its test screen: the clock is
    the only way on.  [startTest] is taken as one step, the words arriving
    before the first second has passed. *)

Module OldWatRun.
Import OldWat.

Definition setTestState (v : TestState) (s : State) : State :=
  mkState v (words s) (currentWordIndex s) (timeLeft s) (currentResponse s)
    (allResponses s) (sessionId s).
Definition setTimeLeft (v : Z) (s : State) : State :=
  mkState (testState s) (words s) (currentWordIndex s) v (currentResponse s)
    (allResponses s) (sessionId s).
Definition setCurrentResponse (v : string) (s : State) : State :=
  mkState (testState s) (words s) (currentWordIndex s) (timeLeft s) v
    (allResponses s) (sessionId s).
Definition setCurrentWordIndex (v : Z) (s : State) : State :=
  mkState (testState s) (words s) v (timeLeft s) (currentResponse s)
    (allResponses s) (sessionId s).
Definition setAllResponses (v : list Response) (s : State) : State :=
  mkState (testState s) (words s) (currentWordIndex s) (timeLeft s)
    (currentResponse s) v (sessionId s).
Definition setSessionId (v : option Z) (s : State) : State :=
  mkState (testState s) (words s) (currentWordIndex s) (timeLeft s)
    (currentResponse s) (allResponses s) v.

#[global] Instance OldTestState_eq_dec : EqDecision TestState.
Proof. solve_decision. Defined.

(** [saveSessionAndFinish]: the page is finished before the request is
    sent; [o] is what the request comes to. *)
Definition saveSessionAndFinish (o : Wat.SaveOutcome) (s : State) : State :=
  let s1 := setTestState finished s in
  match o with
  | Wat.SaveOk id => setSessionId (Some id) s1
  | Wat.SaveError _ => s1
  end.

(** The timer effect: an interval exists while the session is running and
    the clock is above zero, and its callback takes one second off. *)
Definition tick (s : State) : State :=
  if bool_decide (testState s = running) && (0 <? timeLeft s)
  then setTimeLeft (timeLeft s - 1) s
  else s.

Inductive Result : Type :=
| Next (s : State)
| Submit (s : State) (payload : list Response).

(** The auto-advance effect. *)
Definition autoAdvance (s : State) : Result :=
  if bool_decide (testState s = running) && (0 <? JS.len (words s)) && (timeLeft s <=? 0)
  then
    let newResponses :=
      (allResponses s
       ++ [mkResponse (JS.at_index (words s) (currentWordIndex s)) (currentResponse s)])%list in
    let s1 := setCurrentResponse "" (setAllResponses newResponses s) in
    if currentWordIndex s =? JS.len (words s) - 1
    then Submit s1 newResponses
    else Next (setTimeLeft 15 (setCurrentWordIndex (currentWordIndex s + 1) s1))
  else Next s.

Inductive Screen : Type := ReadyScreen | FinishedScreen | LoadingScreen | TestScreen.

Definition screen (s : State) : Screen :=
  match testState s with
  | ready => ReadyScreen
  | finished => FinishedScreen
  | running => match words s with [] => LoadingScreen | _ :: _ => TestScreen end
  end.

Inductive Event : Type :=
| Input (value : string)
| Tick.

Definition dispatch (e : Event) (s : State) : State :=
  match e, screen s with
  | Input v, TestScreen => setCurrentResponse v s
  | Tick, _ => tick s
  | _, _ => s
  end.

Definition step (e : Event) (s : State) : Result := autoAdvance (dispatch e s).

(** A session up to the call that hands the responses over. *)
Fixpoint run (evs : list Event) (s : State) : Result :=
  match evs with
  | [] => Next s
  | e :: evs' =>
      match step e s with
      | Next s' => run evs' s'
      | r => r
      end
  end.

Fixpoint ticks (evs : list Event) : Z :=
  match evs with
  | [] => 0
  | Tick :: r => 1 + ticks r
  | Input _ :: r => ticks r
  end.

(** Seconds of the session that have gone by, read off the cells. *)
Definition elapsed (s : State) : Z := 15 * currentWordIndex s + (15 - timeLeft s).

(** A session under way. *)
Definition under_way (s : State) : Prop :=
  testState s = running ∧ sessionId s = None
  ∧ 0 <= currentWordIndex s < JS.len (words s)
  ∧ 0 < timeLeft s <= 15
  ∧ map word (allResponses s)
    = map Some (take (Z.to_nat (currentWordIndex s)) (words s)).

(** [handleAnalysis] of this page: one attempt, and no error cell. *)
Definition handleAnalysis (client : Analysis.Client) (sessionId_seen : option Z)
    (σ : Analysis.Sys) : Analysis.Sys :=
  match sessionId_seen with
  | None => σ
  | Some id =>
      if id =? 0 then σ
      else
        let c := Analysis.setAnalysis (Some JNull)
                   (Analysis.setIsAnalyzing true (Analysis.ui σ)) in
        match client (length (Analysis.requests (Analysis.log σ))) id with
        | Analysis.Received a =>
            Analysis.mkSys (Analysis.setIsAnalyzing false (Analysis.setAnalysis a c))
              (Analysis.log σ ++ [Analysis.Post id (Analysis.Received a)])%list
        | Analysis.Failed m =>
            Analysis.mkSys (Analysis.setIsAnalyzing false c)
              (Analysis.log σ ++ [Analysis.Post id (Analysis.Failed m)])%list
        end
  end.

End OldWatRun.

(** ** Further predicates for the situation-reaction page *)

Module SrtMore.
Import Srt.

(** The index points at a situation, and the responses so far are for the
    situations before it, in order. *)
Definition in_order (s : State) : Prop :=
  0 <= currentSituationIndex s < JS.len (situations s)
  ∧ map situation (allResponses s)
    = map Some (take (Z.to_nat (currentSituationIndex s)) (situations s)).

End SrtMore.

(** ** Further sample sessions *)

Module MoreExamples.

(** What [loadSavedProgress] reads from the stored progress of
    [Examples.on_river]. *)
Definition river_raw : Wat.RawProgress :=
  let j := Wat.TestProgress_to_json
             (Wat.mkTestProgress 1 [Wat.mkResponse (Some "Fire") "Fire truck" 3] 12
                Examples.fire_river) in
  Wat.mkRaw (get_prop j "words") (get_prop j "currentWordIndex")
            (get_prop j "allResponses") (get_prop j "timeLeft").

(** [Examples.on_river] after Escape. *)
Definition river_paused : Wat.State :=
  Wat.mkState Wat.paused Examples.fire_river 1 12 "bridge"
    [Wat.mkResponse (Some "Fire") "Fire truck" 3] None false None false.

(** The page after a start that the prompt source answered with no words. *)
Definition start_failed : Wat.State :=
  Wat.setError (Some "Could not start the test: Invalid test data received") Wat.init.


Definition saving_answer : Srt.State :=
  Srt.mkState Srt.running ["You miss the last bus."; "Your friend is hurt."] 0
    "I would walk home." [] None true None 1000 4.

(** The earlier page: a session of two words that has just started, and a
    session of one word in its last second with an answer typed. *)
Definition old_started : OldWat.State :=
  OldWat.mkState OldWat.running Examples.fire_river 0 15 "" [] None.

Definition old_last_second : OldWat.State :=
  OldWat.mkState OldWat.running ["Fire"] 0 1 " Fire truck " [] None.

(** An analysis service that fails once and then answers. *)
Definition second_time : Analysis.Client :=
  fun n _ =>
    match n with
    | 0%nat => Analysis.Failed "HTTP 500: Failed to get analysis"
    | _ => Analysis.Received (Some (JObj [("final_verdict", JStr "Recommended")]))
    end.

Definition saved_session : Analysis.Sys :=
  Analysis.mkSys (Analysis.mkCells (Some 42) (Some JNull) false None) [].

End MoreExamples.

(** * Properties *)

(** ** Word-association page: shape of a step *)

Module WatFacts.
Import Wat.

Section Steps.
Context `{JsonCodec}.

Lemma handleWordComplete_not_due s s' :
  handleWordComplete s = (s', None) -> autoAdvance_due s' = false.
Proof.
  unfold handleWordComplete.
  destruct (currentWordIndex s =? JS.len (words s) - 1); [done |].
  intros [= <-]. unfold autoAdvance_due. simpl.
  by rewrite andb_false_r.
Qed.

Lemma commit_advance s st :
  advance_of s st (commit (after st (handleWordComplete s))).
Proof.
  destruct (handleWordComplete s) as [s' [p|]] eqn:E; simpl.
  - by apply advance_submit.
  - rewrite (handleWordComplete_not_due _ _ E). by apply advance_next.
Qed.

Lemma commit_minor s' st :
  (autoAdvance_due s' = false ∧ commit (Next s' st) = Next s' (autoSave s' st))
  ∨ (autoAdvance_due s' = true ∧ advance_of s' (autoSave s' st) (commit (Next s' st))).
Proof.
  unfold commit. destruct (autoAdvance_due s') eqn:D; [right | left; done].
  split; [done |].
  destruct (handleWordComplete s') as [s'' [p|]] eqn:E.
  - by apply advance_submit.
  - by apply advance_next.
Qed.

Lemma dispatch_cases e s st :
  starts e s
  ∨ (∃ s', minor s s' ∧ dispatch e s st = Next s' st)
  ∨ (testState s = running ∧ dispatch e s st = after st (handleWordComplete s)).
Proof.
  destruct e; unfold dispatch, screen, handleKeyPress; simpl;
    destruct (testState s) eqn:T; try destruct (words s) eqn:W;
    repeat match goal with
    | |- context [if ?b then _ else _] => destruct b eqn:?
    | |- context [match error s with _ => _ end] => destruct (error s) eqn:?
    end; simpl;
    first [ by left
          | by (right; right)
          | right; left; eexists; split; [| reflexivity];
            first [ by apply minor_none | by apply minor_input | by apply minor_pause
                  | by apply minor_resume | by apply minor_tick | by apply minor_dismiss ] ].
Qed.

(** Between two events no auto-advance is pending. *)
Lemma step_next_not_due e s st s' st' :
  step e s st = Next s' st' -> autoAdvance_due s' = false.
Proof.
  unfold step, commit.
  destruct (dispatch e s st) as [s1 st1 | s1 st1 p |]; [| done | done].
  destruct (autoAdvance_due s1) eqn:D.
  - destruct (handleWordComplete s1) as [s2 [p|]] eqn:E; [done |].
    intros [= <- _]. by eapply handleWordComplete_not_due.
  - by intros [= <- _].
Qed.

End Steps.

(** *** Responses and index *)

Lemma len_snoc {A} (l : list A) (x : A) : JS.len (l ++ [x]) = JS.len l + 1.
Proof. unfold JS.len. rewrite length_app. simpl. lia. Qed.

Lemma handleWordComplete_balanced s :
  balanced s ->
  match handleWordComplete s with
  | (s', None) => balanced s' ∧ testState s' = testState s
  | (s', Some payload) => handed_over s' payload
  end.
Proof.
  unfold balanced, handed_over, handleWordComplete. intros Hb.
  destruct (Z.eqb_spec (currentWordIndex s) (JS.len (words s) - 1)) as [E|E]; simpl.
  - rewrite len_snoc. repeat split; lia.
  - rewrite len_snoc. split; [lia | done].
Qed.

Lemma minor_balanced s s' :
  minor s s' -> testState s ≠ ready -> balanced s ->
  balanced s' ∧ testState s' ≠ ready.
Proof.
  intros M R B. destruct M; unfold balanced in *; simpl; try done.
  - unfold resumeTimer. case_decide; simpl; done.
  - unfold tick. case_match; simpl; done.
Qed.

Section Run.
Context `{JsonCodec}.

Lemma handed_over_store_any s st0 :
  testState s = running ->
  autoSave s st0 !! key = Some (JSON_stringify (TestProgress_to_json (snapshot s))).
Proof.
  intros T. unfold autoSave. rewrite decide_True by done. apply lookup_insert_eq.
Qed.

Lemma advance_of_settled s st r :
  advance_of s st r -> balanced s -> testState s ≠ ready -> settled r.
Proof.
  intros A B R. pose proof (handleWordComplete_balanced s B) as Hh.
  destruct A as [s' E | s' p E]; rewrite E in Hh; simpl.
  - destruct Hh as [? ->]. done.
  - done.
Qed.

Lemma step_settled e s st :
  balanced s -> testState s ≠ ready -> settled (step e s st).
Proof.
  intros B R. unfold step.
  destruct (dispatch_cases e s st) as [S | [(s' & M & ->) | (T & ->)]].
  - destruct e; simpl in S; try done. by destruct S.
  - destruct (minor_balanced _ _ M R B) as [B' R'].
    destruct (commit_minor s' st) as [(_ & ->) | (_ & A)]; [done |].
    by eapply advance_of_settled.
  - eapply advance_of_settled; [apply commit_advance | done | done].
Qed.

Lemma run_settled evs : ∀ s st,
  balanced s -> testState s ≠ ready -> settled (run evs s st).
Proof.
  induction evs as [| e evs IH]; intros s st B R; simpl; [done |].
  pose proof (step_settled e s st B R) as Hs.
  destruct (step e s st) as [s' st' | s' st' p |]; [| done | done].
  destruct Hs. by apply IH.
Qed.

End Run.
End WatFacts.

(** ** Situation-reaction page: responses and index *)

Module SrtFacts.
Import Srt.

Lemma effects_keep before now s :
  allResponses (startTimeEffect before now (wordCountEffect s)) = allResponses s
  ∧ currentSituationIndex (startTimeEffect before now (wordCountEffect s))
    = currentSituationIndex s
  ∧ situations (startTimeEffect before now (wordCountEffect s)) = situations s.
Proof. unfold startTimeEffect, wordCountEffect. by case_match. Qed.

Lemma srt_handleNext_settled now s :
  balanced s -> settled (after (handleNext now s)).
Proof.
  unfold balanced, handleNext. intros B.
  destruct (isSaving s || negb (JS.truthy (JS.trim (currentResponse s)))); [done |].
  destruct (Z.eqb_spec (currentSituationIndex s) (JS.len (situations s) - 1)) as [E|E];
    simpl; unfold handed_over, balanced; simpl; rewrite WatFacts.len_snoc.
  - repeat split; lia.
  - lia.
Qed.

Lemma srt_dispatch_settled e s : balanced s -> settled (dispatch e s).
Proof.
  intros B. unfold dispatch, handleKeyPress.
  destruct (control e), (screen s); try done;
    repeat match goal with
    | |- context [match testState s with _ => _ end] => destruct (testState s)
    | |- context [if ?b then _ else _] => destruct b
    end; try done; by apply srt_handleNext_settled.
Qed.

Lemma srt_step_settled e s : balanced s -> settled (step e s).
Proof.
  intros B. unfold step. pose proof (srt_dispatch_settled e s B) as D.
  destruct (dispatch e s) as [s' | s' p]; simpl in *;
    destruct (effects_keep s (effects_at e) s') as (E1 & E2 & E3);
    unfold balanced, handed_over in *; rewrite E1, E2, ?E3; done.
Qed.

Lemma srt_run_settled evs : ∀ s, balanced s -> settled (run evs s).
Proof.
  induction evs as [| e evs IH]; intros s B; simpl; [done |].
  pose proof (srt_step_settled e s B) as Hs.
  destruct (step e s) as [s' | s' p]; [by apply IH | done].
Qed.

End SrtFacts.

Module SaveFacts.
Import Wat.

Lemma attempts_app l1 l2 : attempts (l1 ++ l2) = (attempts l1 ++ attempts l2)%list.
Proof.
  induction l1 as [| [p o | ms] l1 IH]; simpl; [done | by rewrite IH | done].
Qed.

(** One attempt that fails with retries left: the page waits two seconds and
    calls again. *)
Lemma save_retry client payload retryCount σ m :
  client (length (attempts (log σ))) payload = SaveError m ->
  (retryCount < 2)%nat ->
  saveSessionAndFinish client false payload retryCount σ
  = saveSessionAndFinish client false payload (retryCount + 1)
      (mkSys (setIsSaving false (setError (Some m) (setError None (setIsSaving true (ui σ)))))
             (store σ)
             (log σ ++ [Post payload (SaveError m); Sleep 2000])).
Proof.
  intros E L. simp saveSessionAndFinish. rewrite E. simpl.
  destruct (decide (retryCount < 2)%nat); [| lia]. by simp saveSessionAndFinish.
Qed.

Lemma save_give_up client payload retryCount σ m :
  client (length (attempts (log σ))) payload = SaveError m ->
  (2 <= retryCount)%nat ->
  saveSessionAndFinish client false payload retryCount σ
  = mkSys (setIsSaving false (setError (Some m) (setError None (setIsSaving true (ui σ)))))
          (store σ)
          (log σ ++ [Post payload (SaveError m)]).
Proof.
  intros E L. simp saveSessionAndFinish. rewrite E. simpl.
  destruct (decide (retryCount < 2)%nat); [lia |]. by simp saveSessionAndFinish.
Qed.

Lemma save_ok client payload retryCount σ id :
  client (length (attempts (log σ))) payload = SaveOk id ->
  saveSessionAndFinish client false payload retryCount σ
  = mkSys (setIsSaving false (setTestState finished (setSessionId (Some id)
             (setError None (setIsSaving true (ui σ))))))
          (clearSavedProgress (store σ))
          (log σ ++ [Post payload (SaveOk id)]).
Proof.
  intros E. simp saveSessionAndFinish. rewrite E. by simp saveSessionAndFinish.
Qed.

Lemma failed_again m u :
  setIsSaving false (setError (Some m) (setError None (setIsSaving true u)))
  = setError (Some m) (setIsSaving false u).
Proof. by destruct u. Qed.

Lemma failed_twice m m' u :
  setError (Some m') (setIsSaving false (setError (Some m) (setIsSaving false u)))
  = setError (Some m') (setIsSaving false u).
Proof. by destruct u. Qed.




End SaveFacts.

(** ** Word-association page: the hand-over and the save chain *)

Module SubmitFacts.
Import Wat WatFacts SaveFacts.

Section Submit.
Context `{JsonCodec}.

Lemma handleWordComplete_submit s s' p :
  handleWordComplete s = (s', Some p) ->
  p = (allResponses s
       ++ [mkResponse (JS.at_index (words s) (currentWordIndex s))
             (JS.trim (currentResponse s)) (JS.max0 (15 - timeLeft s))])%list
  ∧ s' = setCurrentResponse "" (setAllResponses p s)
  ∧ currentWordIndex s = JS.len (words s) - 1.
Proof.
  unfold handleWordComplete.
  destruct (Z.eqb_spec (currentWordIndex s) (JS.len (words s) - 1)); [| done].
  by intros [= <- <-].
Qed.

Lemma due_running s : autoAdvance_due s = true -> testState s = running.
Proof.
  unfold autoAdvance_due. intros D.
  apply andb_prop in D as [D _]. apply andb_prop in D as [D _].
  by apply bool_decide_eq_true in D.
Qed.







End Submit.



End SubmitFacts.

(** ** Responses and index, both pages *)

(** C1, as amended.  Start from cells in which there are as many responses as
    the index says, with the session under way.  Whatever events follow, as
    long as the responses have not been handed over the two numbers stay
    equal; the advance on the last prompt appends its response and leaves the
    index, so that the responses handed over are all the responses, one more
    than the index and as many as there are prompts. *)
Theorem responses_track_index `{JsonCodec} :
  (∀ (evs : list Wat.Event) (s : Wat.State) (st : Storage),
      JS.len (Wat.allResponses s) = Wat.currentWordIndex s ->
      Wat.testState s ≠ Wat.ready ->
      match Wat.run evs s st with
      | Wat.Next s' _ => JS.len (Wat.allResponses s') = Wat.currentWordIndex s'
      | Wat.Submit s' _ payload =>
          JS.len (Wat.allResponses s') = Wat.currentWordIndex s' + 1
          ∧ Wat.currentWordIndex s' + 1 = JS.len (Wat.words s')
          ∧ payload = Wat.allResponses s'
      | Wat.IllTyped => False
      end)
  ∧ (∀ (evs : list Srt.Event) (s : Srt.State),
      JS.len (Srt.allResponses s) = Srt.currentSituationIndex s ->
      match Srt.run evs s with
      | Srt.Next s' => JS.len (Srt.allResponses s') = Srt.currentSituationIndex s'
      | Srt.Submit s' payload =>
          JS.len (Srt.allResponses s') = Srt.currentSituationIndex s' + 1
          ∧ Srt.currentSituationIndex s' + 1 = JS.len (Srt.situations s')
          ∧ payload = Srt.allResponses s'
      end).
Proof.
  split.
  - intros evs s st B R. pose proof (WatFacts.run_settled evs s st B R) as S.
    destruct (Wat.run evs s st); simpl in S; [by destruct S | done | done].
  - intros evs s B. pose proof (SrtFacts.srt_run_settled evs s B) as S.
    by destruct (Srt.run evs s).
Qed.

(** C1, on sample sessions: a tick, an answer and a submit on the last word
    of the timed page; Ctrl+Enter on the first situation of the untimed one. *)
Lemma responses_track_index_witness :
  (JS.len (Wat.allResponses Examples.on_river) = Wat.currentWordIndex Examples.on_river
   ∧ Wat.testState Examples.on_river ≠ Wat.ready
   ∧ match Wat.run (H := RefCodec.codec)
             [Wat.Tick; Wat.Input "stone bridge"; Wat.ClickSubmit] Examples.on_river ∅
     with
     | Wat.Next s' _ => JS.len (Wat.allResponses s') = Wat.currentWordIndex s'
     | Wat.Submit s' _ payload =>
         JS.len (Wat.allResponses s') = Wat.currentWordIndex s' + 1
         ∧ Wat.currentWordIndex s' + 1 = JS.len (Wat.words s')
         ∧ payload = Wat.allResponses s'
     | Wat.IllTyped => False
     end)
  ∧ (JS.len (Srt.allResponses Examples.short_answer)
     = Srt.currentSituationIndex Examples.short_answer
     ∧ match Srt.run [Examples.ctrl_enter 5000] Examples.short_answer with
       | Srt.Next s' => JS.len (Srt.allResponses s') = Srt.currentSituationIndex s'
       | Srt.Submit s' payload =>
           JS.len (Srt.allResponses s') = Srt.currentSituationIndex s' + 1
           ∧ Srt.currentSituationIndex s' + 1 = JS.len (Srt.situations s')
           ∧ payload = Srt.allResponses s'
       end).
Proof.
  pose proof (responses_track_index (H := RefCodec.codec)) as [W S].
  split.
  - split; [reflexivity |]. split; [discriminate |].
    exact (W [Wat.Tick; Wat.Input "stone bridge"; Wat.ClickSubmit]
             Examples.on_river ∅ eq_refl ltac:(discriminate)).
  - split; [reflexivity |].
    exact (S [Examples.ctrl_enter 5000] Examples.short_answer eq_refl).
Defined.

(** C1 as the specification words it fails on the last word: the advance is
    complete, there are two responses and the index is still 1. *)
Lemma final_advance_leaves_index :
  Wat.testState Examples.on_river = Wat.running
  ∧ Wat.balanced Examples.on_river
  ∧ Wat.step (H := RefCodec.codec) Wat.ClickSubmit Examples.on_river ∅
    = Wat.Submit Examples.river_done
        (Wat.autoSave (H := RefCodec.codec) Examples.river_done ∅)
        Examples.river_payload
  ∧ JS.len (Wat.allResponses Examples.river_done) = 2
  ∧ Wat.currentWordIndex Examples.river_done = 1
  ∧ ¬ Wat.balanced Examples.river_done.
Proof.
  repeat (split; [reflexivity |]). unfold Wat.balanced. simpl. discriminate.
Qed.

(** ** Situation-reaction page: the minimum length *)

Module SrtMinimum.
Import Srt.

(** The button does nothing while the response is below the minimum. *)
Lemma button_refuses_invalid e s :
  control e = ClickNext -> isResponseValid s = false -> dispatch e s = Next s.
Proof.
  intros C V. unfold dispatch. rewrite C, V. simpl. by destruct (screen s).
Qed.

(** The key listener does nothing while the response is blank. *)
Lemma keys_refuse_blank e s k c :
  control e = KeyDown k c -> JS.truthy (JS.trim (currentResponse s)) = false ->
  dispatch e s = Next s.
Proof.
  intros C V. unfold dispatch, handleKeyPress. rewrite C, V.
  rewrite andb_false_r. by destruct (testState s), (screen s).
Qed.

(** C3, the failing input.  With "ok" typed (one word, two characters) the
    response is not valid and the button does nothing, but Ctrl+Enter captures
    the response and moves to the next situation. *)
Theorem keyboard_submit_skips_minimum :
  isResponseValid Examples.short_answer = false
  ∧ step (Examples.click_next 5000) Examples.short_answer = Next Examples.short_answer
  ∧ step (Examples.ctrl_enter 5000) Examples.short_answer
    = Next Examples.short_answer_taken.
Proof. repeat split; reflexivity. Qed.

End SrtMinimum.

(** ** Word-association page: the progress store *)

Module StoreFacts.
Import Wat WatFacts.

Lemma strings_of_json_map ws : strings_of_json (map JStr ws) = Some ws.
Proof. induction ws as [| w ws IH]; simpl; [done | by rewrite IH]. Qed.

Lemma Response_of_to_json r : Response_of_json (Response_to_json r) = Some r.
Proof. by destruct r as [[w|] r t]. Qed.

Lemma Responses_of_json_map rs :
  Responses_of_json (map Response_to_json rs) = Some rs.
Proof.
  induction rs as [| r rs IH]; [done |].
  change (map Response_to_json (r :: rs))
    with (Response_to_json r :: map Response_to_json rs).
  cbn [Responses_of_json]. rewrite Response_of_to_json, IH. done.
Qed.

(** The document of a snapshot has the four members at their types. *)
Lemma typed_snapshot p :
  typed (mkRaw (get_prop (TestProgress_to_json p) "words")
               (get_prop (TestProgress_to_json p) "currentWordIndex")
               (get_prop (TestProgress_to_json p) "allResponses")
               (get_prop (TestProgress_to_json p) "timeLeft")) = Some p.
Proof.
  destruct p as [i rs t ws]. unfold typed. cbn.
  rewrite strings_of_json_map, Responses_of_json_map. done.
Qed.

Section Store.
Context `{JsonCodec}.

Lemma load_absent st : st !! key = None -> loadSavedProgress st = LoadedFalse st.
Proof. intros E. unfold loadSavedProgress. by rewrite E. Qed.

Lemma load_unparseable st saved :
  st !! key = Some saved -> saved ≠ "" ->
  JSON_parse saved = None ∨ JSON_parse saved = Some JNull ->
  loadSavedProgress st = LoadedFalse (delete key st).
Proof.
  intros E N P. unfold loadSavedProgress. rewrite E.
  destruct saved; [done |]. simpl. by destruct P as [-> | ->].
Qed.

Lemma load_snapshot st p :
  st !! key = Some (JSON_stringify (TestProgress_to_json p)) ->
  round_trips (TestProgress_to_json p) ->
  ∃ raw, loadSavedProgress st = LoadedTrue raw ∧ typed raw = Some p.
Proof.
  intros E [T P]. unfold loadSavedProgress. rewrite E, T, P.
  eexists. split; [reflexivity |]. apply typed_snapshot.
Qed.

End Store.
Section Corrupt.
Context `{JsonCodec}.

(** C5, as amended.  A stored text that is not empty and that [JSON.parse]
    rejects, or reads as [null], is treated as no snapshot: the load returns
    [false] and removes the entry, which leaves the store as if nothing had
    been stored; starting the test then goes the same way as with no entry,
    straight to the fresh start without a resume question; and the auto-save
    of a running session writes what it would have written anyway. *)
Theorem unparseable_snapshot_is_absent (st : Storage) (saved : string) :
  st !! key = Some saved ->
  saved ≠ "" ->
  JSON_parse saved = None ∨ JSON_parse saved = Some JNull ->
  loadSavedProgress st = LoadedFalse (delete key st)
  ∧ loadSavedProgress (delete key st) = LoadedFalse (delete key st)
  ∧ delete key st !! key = None
  ∧ (∀ c f s, startTest c f s st = startTest c f s (delete key st)
              ∧ startTest c f s st
                = startFresh f (setSessionId None (setError None s)) (delete key st))
  ∧ (∀ s, testState s = running -> autoSave s (delete key st) = autoSave s st).
Proof.
  intros E N P.
  pose proof (load_unparseable st saved E N P) as L1.
  pose proof (load_absent (delete key st) (lookup_delete_eq st key)) as L2.
  split; [done |]. split; [done |]. split; [apply lookup_delete_eq |]. split.
  - intros c f s. unfold startTest. rewrite L1, L2. split; reflexivity.
  - intros s T. unfold autoSave. rewrite !decide_True by done. apply insert_delete_eq.
Qed.

End Corrupt.

(** C5, on a stored text that breaks off. *)
Lemma unparseable_snapshot_witness :
  ({[ key := "[15,12" ]} : Storage) !! key
    = Some "[15,12"
  ∧ "[15,12" ≠ ""
  ∧ (JSON_parse (JsonCodec := RefCodec.codec) "[15,12" = None
     ∨ JSON_parse (JsonCodec := RefCodec.codec) "[15,12"
       = Some JNull)
  ∧ loadSavedProgress (H := RefCodec.codec)
      {[ key := "[15,12" ]}
    = LoadedFalse (delete key {[ key := "[15,12" ]}).
Proof.
  split; [reflexivity |]. split; [discriminate |]. split; [left; reflexivity |].
  exact (proj1 (unparseable_snapshot_is_absent (H := RefCodec.codec)
                  {[ key := "[15,12" ]}
                  "[15,12"
                  eq_refl ltac:(discriminate) (or_introl eq_refl))).
Defined.

(** C5 as the specification words it fails on a stored text that parses but
    is no snapshot: the empty object is not a valid snapshot, yet the load
    reports a snapshot (with all four members undefined) and keeps the
    entry, and starting the test does not take the fresh-start path. *)
Lemma wrong_shape_counts_as_snapshot :
  deserialize (H := RefCodec.codec) "{}" = None
  ∧ loadSavedProgress (H := RefCodec.codec) {[ key := "{}" ]}
    = LoadedTrue (mkRaw None None None None)
  ∧ loadSavedProgress (H := RefCodec.codec) (∅ : Storage) = LoadedFalse ∅
  ∧ startTest (H := RefCodec.codec) false Examples.fire_fetched init {[ key := "{}" ]} = None
  ∧ startTest (H := RefCodec.codec) false Examples.fire_fetched init ∅
    = Some (Examples.on_fire, ∅).
Proof. repeat split; reflexivity. Qed.

End StoreFacts.

(** ** Word-association page: resuming *)

Module ResumeFacts.
Import Wat WatFacts SubmitFacts StoreFacts.

Lemma run_app `{JsonCodec} evs1 evs2 : ∀ s st,
  run (evs1 ++ evs2) s st
  = match run evs1 s st with
    | Next s' st' => run evs2 s' st'
    | r => r
    end.
Proof.
  induction evs1 as [| e evs1 IH]; intros s st; simpl; [done |].
  destruct (step e s st); [apply IH | done | done].
Qed.

Lemma not_due_positive s :
  testState s = running -> words s ≠ [] -> autoAdvance_due s = false -> 0 < timeLeft s.
Proof.
  intros T W D. unfold autoAdvance_due in D. rewrite bool_decide_eq_true_2 in D by done.
  assert (L : (0 <? JS.len (words s)) = true).
  { apply Z.ltb_lt. unfold JS.len. destruct (words s); [done | simpl; lia]. }
  rewrite L, andb_true_r in D. simpl in D. by apply Z.leb_gt in D.
Qed.

Lemma positive_not_due s : 0 < timeLeft s -> autoAdvance_due s = false.
Proof.
  intros P. unfold autoAdvance_due.
  replace (timeLeft s <=? 0) with false by (symmetry; by apply Z.leb_gt).
  by rewrite andb_false_r.
Qed.

Lemma handleWordComplete_steady s s' :
  steady s -> testState s = running ->
  handleWordComplete s = (s', None) -> steady s'.
Proof.
  intros (S & E & I & W & P & C) T. unfold handleWordComplete.
  destruct (currentWordIndex s =? JS.len (words s) - 1); [done |].
  intros [= <-]. unfold steady. simpl. repeat split; try done. by left.
Qed.

(** A tick that brings the clock to zero leaves cells that are steady but for
    the clock; the auto-advance that follows restores it. *)
Lemma minor_steady s s' :
  minor s s' -> steady s ->
  (autoAdvance_due s' = false -> steady s')
  ∧ (autoAdvance_due s' = true ->
     ∀ s'', handleWordComplete s' = (s'', None) -> steady s'').
Proof.
  intros M St. pose proof St as (S & E & I & W & P & C).
  assert (G : steady s' ∨
              (s' = setTimeLeft 0 (setTimerActive false s) ∧ testState s = running)).
  { destruct M; try (by left).
    - left. unfold steady. simpl. repeat split; try done. by right.
    - left. destruct C as [[C _] | [_ C]]; [congruence |].
      unfold resumeTimer. rewrite decide_True by done.
      unfold steady. simpl. repeat split; try done. by left.
    - destruct C as [[C1 C2] | [_ C]]; [| congruence].
      unfold tick. destruct (Z.leb_spec (timeLeft s) 1); [by right |].
      left. unfold steady. simpl. repeat split; try done; [lia | by left]. }
  destruct G as [G | [-> T]].
  - split; [done |]. intros D. rewrite positive_not_due in D; [done |]. by destruct G as (_ & _ & _ & _ & ? & _).
  - split.
    + unfold autoAdvance_due. simpl. rewrite bool_decide_eq_true_2 by done. simpl.
      destruct (words s) eqn:Ws; [done |]. done.
    + intros _ s''. unfold handleWordComplete. simpl.
      destruct (currentWordIndex s =? JS.len (words s) - 1); [done |].
      intros [= <-]. unfold steady. simpl. repeat split; try done. by left.
Qed.

Section Resume.
Context `{JsonCodec}.

Lemma steady_not_ready s : steady s -> testState s ≠ ready.
Proof. intros (_ & _ & _ & _ & _ & [[-> _] | [-> _]]); done. Qed.

Lemma advance_next_inv s st s' st' :
  advance_of s st (Next s' st') ->
  handleWordComplete s = (s', None) ∧ st' = autoSave s' st.
Proof. inversion 1; subst. done. Qed.

Lemma step_steady e s st s' st' :
  steady s -> step e s st = Next s' st' -> steady s'.
Proof.
  intros St. unfold step.
  destruct (dispatch_cases e s st) as [S | [(s1 & M & ->) | (T & ->)]].
  - destruct e; simpl in S; try done. destruct S as [S _].
    by destruct (steady_not_ready s St).
  - destruct (minor_steady _ _ M St) as [G1 G2].
    destruct (commit_minor s1 st) as [(D & ->) | (D & A)].
    + intros [= <- _]. by apply G1.
    + intros E. rewrite E in A. apply advance_next_inv in A as [A _].
      by eapply G2.
  - intros E. pose proof (commit_advance s st) as A. rewrite E in A.
    apply advance_next_inv in A as [A _].
    by eapply handleWordComplete_steady.
Qed.

Lemma step_mirrored e s st s' st' :
  step e s st = Next s' st' -> mirrored s' st'.
Proof.
  unfold step, commit, mirrored.
  destruct (dispatch e s st) as [s1 st1 | s1 st1 p |]; [| done | done].
  destruct (autoAdvance_due s1).
  - destruct (handleWordComplete s1) as [s2 [p|]]; [done |].
    intros [= <- <-] T. by eapply handed_over_store_any.
  - intros [= <- <-] T. by eapply handed_over_store_any.
Qed.

Lemma run_steady evs : ∀ s st s' st',
  steady s -> run evs s st = Next s' st' -> steady s'.
Proof.
  induction evs as [| e evs IH]; intros s st s' st' St; simpl.
  - by intros [= <- _].
  - destruct (step e s st) as [s1 st1 | |] eqn:E; [| done | done].
    apply IH. by eapply step_steady.
Qed.

Lemma run_mirrored evs : ∀ s st s' st',
  mirrored s st -> run evs s st = Next s' st' -> mirrored s' st'.
Proof.
  induction evs as [| e evs IH]; intros s st s' st' M; simpl.
  - by intros [= <- <-].
  - destruct (step e s st) as [s1 st1 | |] eqn:E; [| done | done].
    apply IH. by eapply step_mirrored.
Qed.

(** What [startTest] leaves when the session is running afterwards. *)
Lemma startTest_running c f s st s1 st1 :
  isSaving s = false -> testState s = ready ->
  startTest c f s st = Some (s1, st1) -> testState s1 = running ->
  isSaving s1 = false ∧ error s1 = None ∧ sessionId s1 = None ∧ timerActive s1 = true.
Proof.
  intros S R. unfold startTest, startFresh.
  destruct (loadSavedProgress st) as [raw | st2].
  - destruct (typed raw) as [p|]; [simpl | done]. destruct c.
    + by intros [= <- _] _.
    + destruct (fetched_words f) as [m | l]; simpl.
      * intros [= <- _]. simpl. congruence.
      * destruct (strings_of_json l); [simpl | done]. by intros [= <- _] _.
  - destruct (fetched_words f) as [m | l]; simpl.
    + intros [= <- _]. simpl. congruence.
    + destruct (strings_of_json l); [simpl | done]. by intros [= <- _] _.
Qed.

(** A session that "Start Test" has brought to [running] with prompts to
    show is steady. *)
Lemma start_steady c f st s0 st0 :
  step (ClickStart c f) init st = Next s0 st0 ->
  testState s0 = running -> words s0 ≠ [] -> steady s0.
Proof.
  unfold step, dispatch. simpl.
  destruct (startTest c f init st) as [[s1 st1] |] eqn:E; [| done].
  unfold commit. destruct (autoAdvance_due s1) eqn:D.
  - destruct (handleWordComplete s1) as [s2 [p|]] eqn:Hh; [done |].
    intros [= <- _] T W.
    pose proof (due_running _ D) as T1.
    destruct (startTest_running c f init st s1 st1 eq_refl eq_refl E T1) as (S1 & E1 & I1 & A1).
    revert Hh. unfold handleWordComplete.
    destruct (currentWordIndex s1 =? JS.len (words s1) - 1); [done |].
    intros [= <-]. unfold steady. simpl in *. repeat split; try done. by left.
  - intros [= <- _] T W.
    destruct (startTest_running c f init st s1 st1 eq_refl eq_refl E T) as (S1 & E1 & I1 & A1).
    unfold steady. repeat split; try done; [by apply not_due_positive | by left].
Qed.

(** Loading the page again and resuming brings back the cells of a steady
    running session whose input is empty. *)
Lemma resume_restores f s st :
  steady s -> testState s = running -> currentResponse s = "" ->
  mirrored s st -> round_trips (TestProgress_to_json (snapshot s)) ->
  step (ClickStart true f) init st = Next s st.
Proof.
  intros (S & E & I & W & P & C) T B M RT.
  destruct C as [[_ A] | [C _]]; [| congruence].
  destruct (load_snapshot st (snapshot s) (M T) RT) as (raw & L & Ty).
  unfold step, dispatch. simpl. unfold startTest. rewrite L, Ty. simpl.
  assert (Es : startTimer (setTestState running
                 (restore (snapshot s) (setSessionId None (setError None init)))) = s).
  { destruct s. simpl in *. by subst. }
  rewrite Es. rewrite (positive_not_due s P).
  f_equal. unfold autoSave. rewrite decide_True by done. by apply insert_id, M.
Qed.

(** C6, as amended.  Take a session that "Start Test" has brought to
    [running] with prompts to show, and any sequence of events.  Interrupt it
    after [k] of them at a point where the session is running and the input
    is empty, and where the platform reads the stored snapshot back as
    written.  Loading the page again, resuming, and going on with the
    remaining events ends exactly as the uninterrupted session does: same
    cells, same store, same responses handed over. *)
Theorem resume_equivalence (c : bool) (f f' : FetchOutcome) (st_init : Storage)
    (s0 : State) (st0 : Storage) (evs : list Event) (k : nat)
    (s_k : State) (st_k : Storage) :
  step (ClickStart c f) init st_init = Next s0 st0 ->
  testState s0 = running ->
  words s0 ≠ [] ->
  run (take k evs) s0 st0 = Next s_k st_k ->
  testState s_k = running ->
  currentResponse s_k = "" ->
  round_trips (TestProgress_to_json (snapshot s_k)) ->
  interrupted k f' evs s0 st0 = run evs s0 st0
  ∧ responses_of (interrupted k f' evs s0 st0) = responses_of (run evs s0 st0).
Proof.
  intros Start T0 W0 Hk Tk Bk RT.
  assert (interrupted k f' evs s0 st0 = run evs s0 st0) as ->; [| done].
  pose proof (start_steady _ _ _ _ _ Start T0 W0) as St0.
  pose proof (step_mirrored _ _ _ _ _ Start) as M0.
  pose proof (run_steady _ _ _ _ _ St0 Hk) as Stk.
  pose proof (run_mirrored _ _ _ _ _ M0 Hk) as Mk.
  unfold interrupted. rewrite Hk.
  rewrite <- (take_drop k evs) at 2. rewrite run_app, Hk.
  simpl. by rewrite (resume_restores f' s_k st_k).
Qed.

End Resume.

(** C6, on a sample session: one word, two ticks, then an answer; the
    interruption comes after the two ticks. *)
Lemma resume_equivalence_witness :
  step (H := RefCodec.codec) (ClickStart false Examples.fire_fetched) init ∅
  = Next Examples.on_fire (autoSave (H := RefCodec.codec) Examples.on_fire ∅)
  ∧ testState Examples.on_fire = running
  ∧ words Examples.on_fire ≠ []
  ∧ run (H := RefCodec.codec) (take 2 Examples.tick_type_submit) Examples.on_fire
      (autoSave (H := RefCodec.codec) Examples.on_fire ∅)
    = Next (setTimeLeft 13 Examples.on_fire)
        (autoSave (H := RefCodec.codec) (setTimeLeft 13 Examples.on_fire) ∅)
  ∧ round_trips (H := RefCodec.codec)
      (TestProgress_to_json (snapshot (setTimeLeft 13 Examples.on_fire)))
  ∧ responses_of
      (interrupted (H := RefCodec.codec) 2 (FetchRejected "offline")
         Examples.tick_type_submit Examples.on_fire
         (autoSave (H := RefCodec.codec) Examples.on_fire ∅))
    = Some [mkResponse (Some "Fire") "Fire truck" 2].
Proof.
  assert (R : round_trips (H := RefCodec.codec)
                (TestProgress_to_json (snapshot (setTimeLeft 13 Examples.on_fire))))
    by (split; reflexivity).
  assert (S0 : step (H := RefCodec.codec) (ClickStart false Examples.fire_fetched) init ∅
               = Next Examples.on_fire (autoSave (H := RefCodec.codec) Examples.on_fire ∅))
    by reflexivity.
  assert (S2 : run (H := RefCodec.codec) (take 2 Examples.tick_type_submit)
                 Examples.on_fire (autoSave (H := RefCodec.codec) Examples.on_fire ∅)
               = Next (setTimeLeft 13 Examples.on_fire)
                   (autoSave (H := RefCodec.codec) (setTimeLeft 13 Examples.on_fire) ∅))
    by reflexivity.
  split; [exact S0 |]. split; [reflexivity |]. split; [discriminate |].
  split; [exact S2 |]. split; [exact R |].
  rewrite (proj2 (resume_equivalence (H := RefCodec.codec) false Examples.fire_fetched
                    (FetchRejected "offline") ∅ Examples.on_fire
                    (autoSave (H := RefCodec.codec) Examples.on_fire ∅)
                    Examples.tick_type_submit 2
                    (setTimeLeft 13 Examples.on_fire)
                    (autoSave (H := RefCodec.codec) (setTimeLeft 13 Examples.on_fire) ∅)
                    S0 eq_refl ltac:(discriminate) S2 eq_refl eq_refl R)).
  reflexivity.
Defined.

(** C6 as the specification words it fails when the interruption comes while
    an answer is typed: uninterrupted, "Fire truck" is submitted; interrupted
    after the typing, the input is empty on resume, Ctrl+Enter does nothing
    and no response is captured. *)
Lemma interruption_loses_typed_answer :
  responses_of (run (H := RefCodec.codec) Examples.type_then_submit Examples.on_fire
                  (autoSave (H := RefCodec.codec) Examples.on_fire ∅))
  = Some [mkResponse (Some "Fire") "Fire truck" 0]
  ∧ responses_of (interrupted (H := RefCodec.codec) 1 (FetchRejected "offline")
                    Examples.type_then_submit Examples.on_fire
                    (autoSave (H := RefCodec.codec) Examples.on_fire ∅))
    = Some [].
Proof. split; reflexivity. Qed.

End ResumeFacts.

(** ** Time spent on a prompt *)

Module TimeFacts.

Lemma wat_capture (s : Wat.State) :
  ∃ r, Wat.allResponses (Wat.handleWordComplete s).1 = (Wat.allResponses s ++ [r])%list
       ∧ Wat.timeSpent r = Z.max 0 (15 - Wat.timeLeft s).
Proof.
  unfold Wat.handleWordComplete.
  destruct (Wat.currentWordIndex s =? JS.len (Wat.words s) - 1); simpl; eauto.
Qed.

Lemma wat_minor_time s s1 :
  Wat.minor s s1 ->
  Wat.allResponses s1 = Wat.allResponses s
  ∧ (Wat.timeLeft s1 = Wat.timeLeft s ∨ Wat.timeLeft s1 = Wat.timeLeft (Wat.tick s)).
Proof.
  destruct 1; simpl; try (split; [done | by left]).
  - unfold Wat.resumeTimer. case_decide; simpl; (split; [done | by left]).
  - split; [| by right]. unfold Wat.tick. by case_match.
Qed.

Lemma wat_advance_state `{JsonCodec} s st r :
  Wat.advance_of s st r -> Wat.state_of r = Some (Wat.handleWordComplete s).1.
Proof. destruct 1 as [s' E | s' p E]; rewrite E; done. Qed.

Lemma wat_step_time `{JsonCodec} e s st s' :
  ¬ Wat.starts e s -> Wat.state_of (Wat.step e s st) = Some s' ->
  Wat.allResponses s' = Wat.allResponses s
  ∨ ∃ r tl, Wat.allResponses s' = (Wat.allResponses s ++ [r])%list
            ∧ Wat.timeSpent r = Z.max 0 (15 - tl)
            ∧ (tl = Wat.timeLeft s ∨ tl = Wat.timeLeft (Wat.tick s)).
Proof.
  intros NS. unfold Wat.step.
  destruct (WatFacts.dispatch_cases e s st) as [S | [(s1 & M & ->) | (T & ->)]]; [done | |].
  - destruct (wat_minor_time _ _ M) as [A L].
    destruct (WatFacts.commit_minor s1 st) as [(_ & ->) | (_ & Adv)].
    + intros [= <-]. by left.
    + rewrite (wat_advance_state _ _ _ Adv). intros [= <-].
      destruct (wat_capture s1) as (r & E & Ts). right. exists r, (Wat.timeLeft s1).
      rewrite E, A. split; [done |]. split; [done |]. destruct L as [-> | ->]; eauto.
  - rewrite (wat_advance_state _ _ _ (WatFacts.commit_advance s st)). intros [= <-].
    destruct (wat_capture s) as (r & E & Ts). right. exists r, (Wat.timeLeft s). eauto.
Qed.

Lemma srt_handleNext_time now s :
  Srt.allResponses (Srt.handleNext now s).1 = Srt.allResponses s
  ∨ ∃ r, Srt.allResponses (Srt.handleNext now s).1 = (Srt.allResponses s ++ [r])%list
         ∧ Srt.timeSpent r = Z.max 0 ((now - Srt.startTime s) / 1000).
Proof.
  unfold Srt.handleNext.
  destruct (Srt.isSaving s || negb (JS.truthy (JS.trim (Srt.currentResponse s))));
    [by left |].
  right. destruct (Srt.currentSituationIndex s =? JS.len (Srt.situations s) - 1);
    simpl; eauto.
Qed.

Lemma srt_after_state r : Srt.state_of (Srt.after r) = r.1.
Proof. by destruct r as [s [p|]]. Qed.

Lemma srt_commit_responses before now r :
  Srt.allResponses (Srt.state_of (Srt.commit before now r))
  = Srt.allResponses (Srt.state_of r).
Proof. destruct r; simpl; apply SrtFacts.effects_keep. Qed.

Lemma srt_step_time e s :
  Srt.allResponses (Srt.state_of (Srt.step e s)) = Srt.allResponses s
  ∨ ∃ r, Srt.allResponses (Srt.state_of (Srt.step e s)) = (Srt.allResponses s ++ [r])%list
         ∧ Srt.timeSpent r = Z.max 0 ((Srt.handled_at e - Srt.startTime s) / 1000).
Proof.
  unfold Srt.step. rewrite srt_commit_responses.
  unfold Srt.dispatch, Srt.handleKeyPress.
  destruct (Srt.control e), (Srt.screen s); try (by left);
    repeat match goal with
    | |- context [match Srt.testState s with _ => _ end] => destruct (Srt.testState s)
    | |- context [if ?b then _ else _] => destruct b
    end; try (by left); rewrite srt_after_state; apply srt_handleNext_time.
Qed.

Lemma srt_effects_spec before now s1 :
  let s' := Srt.startTimeEffect before now (Srt.wordCountEffect s1) in
  Srt.currentSituationIndex s' = Srt.currentSituationIndex s1
  ∧ (Srt.currentSituationIndex s1 ≠ Srt.currentSituationIndex before ->
     Srt.testState s1 = Srt.running -> Srt.startTime s' = now)
  ∧ (Srt.currentSituationIndex s1 = Srt.currentSituationIndex before ->
     Srt.testState s1 = Srt.testState before -> Srt.startTime s' = Srt.startTime s1).
Proof.
  unfold Srt.startTimeEffect. simpl.
  destruct (bool_decide_reflect
              (Srt.currentSituationIndex s1 ≠ Srt.currentSituationIndex before
               ∨ Srt.testState s1 ≠ Srt.testState before)) as [C | C];
    destruct (bool_decide_reflect (Srt.testState s1 = Srt.running)) as [R | R];
    simpl; (split; [done |]); split; intros; try done; tauto.
Qed.

Lemma srt_handleNext_moves now s s1 :
  Srt.handleNext now s = (s1, None) ->
  Srt.testState s1 = Srt.testState s
  ∧ ((Srt.currentSituationIndex s1 = Srt.currentSituationIndex s
      ∧ Srt.startTime s1 = Srt.startTime s)
     ∨ Srt.currentSituationIndex s1 = Srt.currentSituationIndex s + 1).
Proof.
  unfold Srt.handleNext.
  destruct (Srt.isSaving s || negb (JS.truthy (JS.trim (Srt.currentResponse s)))).
  - intros [= <-]. split; [done | by left].
  - destruct (Srt.currentSituationIndex s =? JS.len (Srt.situations s) - 1); [done |].
    intros [= <-]. simpl. split; [done | by right].
Qed.

Lemma srt_dispatch_moves e s s1 :
  Srt.dispatch e s = Srt.Next s1 ->
  Srt.testState s1 = Srt.testState s
  ∧ ((Srt.currentSituationIndex s1 = Srt.currentSituationIndex s
      ∧ Srt.startTime s1 = Srt.startTime s)
     ∨ (Srt.currentSituationIndex s1 = Srt.currentSituationIndex s + 1
        ∧ Srt.testState s = Srt.running)).
Proof.
  assert (Q : ∀ now, Srt.testState s = Srt.running ->
              Srt.after (Srt.handleNext now s) = Srt.Next s1 ->
              Srt.testState s1 = Srt.testState s
              ∧ ((Srt.currentSituationIndex s1 = Srt.currentSituationIndex s
                  ∧ Srt.startTime s1 = Srt.startTime s)
                 ∨ (Srt.currentSituationIndex s1 = Srt.currentSituationIndex s + 1
                    ∧ Srt.testState s = Srt.running))).
  { intros now T. destruct (Srt.handleNext now s) as [s2 [p|]] eqn:E; [done |].
    intros [= <-]. destruct (srt_handleNext_moves _ _ _ E) as [? [? | ?]]; eauto. }
  unfold Srt.dispatch, Srt.handleKeyPress, Srt.screen.
  destruct (Srt.control e); destruct (Srt.testState s) eqn:T;
    try destruct (Srt.situations s); simpl;
    repeat match goal with
    | |- context [if ?b then _ else _] => destruct b
    end;
    first [ by apply Q
          | intros [= <-]; simpl; split; [done | by left] ].
Qed.

(** [startTime] is the time of the effects that followed the last change of
    the index. *)
Lemma srt_start_time e s s' :
  Srt.step e s = Srt.Next s' ->
  (Srt.currentSituationIndex s' ≠ Srt.currentSituationIndex s ->
   Srt.startTime s' = Srt.effects_at e)
  ∧ (Srt.currentSituationIndex s' = Srt.currentSituationIndex s ->
     Srt.startTime s' = Srt.startTime s).
Proof.
  unfold Srt.step. destruct (Srt.dispatch e s) as [s1 | s1 p] eqn:D; [| done].
  simpl. intros [= <-].
  destruct (srt_dispatch_moves _ _ _ D) as [T M].
  destruct (srt_effects_spec s (Srt.effects_at e) s1) as (I & A & B).
  rewrite I. destruct M as [[M1 M2] | [M1 M2]].
  - split; [done |]. intros _. rewrite <- M2. by apply B.
  - split; [| lia]. intros _. apply A; [lia | congruence].
Qed.

(** C7.  On the timed page every response that a step captures carries
    [max 0 (15 - timeLeft)], with [timeLeft] as the handler sees it: the value
    before the step, or after the tick when the step is a tick.  On the untimed
    page every response that a step captures carries the floor of the
    milliseconds between [startTime] and the moment of the handler divided by
    1000, or 0 if that is negative; and [startTime] is the moment of the
    effects that followed the step in which the situation became current, or
    in which the session began to run. *)
Theorem time_spent_rule `{JsonCodec} :
  (∀ (e : Wat.Event) (s : Wat.State) (st : Storage) (s' : Wat.State),
      ¬ Wat.starts e s -> Wat.state_of (Wat.step e s st) = Some s' ->
      Wat.allResponses s' = Wat.allResponses s
      ∨ ∃ r tl, Wat.allResponses s' = (Wat.allResponses s ++ [r])%list
                ∧ Wat.timeSpent r = Z.max 0 (15 - tl)
                ∧ (tl = Wat.timeLeft s ∨ tl = Wat.timeLeft (Wat.tick s)))
  ∧ (∀ (e : Srt.Event) (s : Srt.State),
      Srt.allResponses (Srt.state_of (Srt.step e s)) = Srt.allResponses s
      ∨ ∃ r, Srt.allResponses (Srt.state_of (Srt.step e s))
             = (Srt.allResponses s ++ [r])%list
             ∧ Srt.timeSpent r
               = Z.max 0 ((Srt.handled_at e - Srt.startTime s) / 1000))
  ∧ (∀ (e : Srt.Event) (s s' : Srt.State),
      Srt.step e s = Srt.Next s' ->
      (Srt.currentSituationIndex s' ≠ Srt.currentSituationIndex s ->
       Srt.startTime s' = Srt.effects_at e)
      ∧ (Srt.currentSituationIndex s' = Srt.currentSituationIndex s ->
         Srt.startTime s' = Srt.startTime s))
  ∧ (∀ (before s : Srt.State) (now : Z),
      Srt.testState before ≠ Srt.running -> Srt.testState s = Srt.running ->
      Srt.startTime (Srt.startTimeEffect before now s) = now).
Proof.
  split; [| split; [| split]].
  - intros e s st s'. apply wat_step_time.
  - apply srt_step_time.
  - apply srt_start_time.
  - intros before s now B R. unfold Srt.startTimeEffect.
    rewrite !bool_decide_eq_true_2; [done | done |]. right. congruence.
Qed.

(** C7, on sample steps: the last word submitted with twelve seconds left,
    and a situation answered four seconds after it came up. *)
Lemma time_spent_rule_witness :
  (¬ Wat.starts Wat.ClickSubmit Examples.on_river
   ∧ Wat.state_of (Wat.step (H := RefCodec.codec) Wat.ClickSubmit Examples.on_river ∅)
     = Some Examples.river_done
   ∧ (Wat.allResponses Examples.river_done = Wat.allResponses Examples.on_river
      ∨ ∃ r tl, Wat.allResponses Examples.river_done
                = (Wat.allResponses Examples.on_river ++ [r])%list
                ∧ Wat.timeSpent r = Z.max 0 (15 - tl)
                ∧ (tl = Wat.timeLeft Examples.on_river
                   ∨ tl = Wat.timeLeft (Wat.tick Examples.on_river))))
  ∧ (Srt.step (Examples.ctrl_enter 5000) Examples.short_answer
     = Srt.Next Examples.short_answer_taken
     ∧ Srt.startTime Examples.short_answer_taken = 5001).
Proof.
  pose proof (time_spent_rule (H := RefCodec.codec)) as (W & _ & T & _).
  split.
  - split; [intros [] |]. split; [reflexivity |].
    apply (W Wat.ClickSubmit Examples.on_river ∅ Examples.river_done);
      [intros [] | reflexivity].
  - split; [reflexivity |].
    apply (T (Examples.ctrl_enter 5000) Examples.short_answer
             Examples.short_answer_taken eq_refl).
    discriminate.
Defined.

End TimeFacts.

(** ** Word-association page: expiry of the clock *)

Module ExpiryFacts.
Import Wat WatFacts.


Section Expiry.
Context `{JsonCodec}.


End Expiry.


End ExpiryFacts.

(** ** Word-association page: the input is not part of the snapshot *)

Module InputFacts.
Import Wat WatFacts SubmitFacts.

Lemma minor_untouched s s' : minor s s' -> untouched s -> untouched s'.
Proof.
  intros M U. destruct M; unfold untouched in *; simpl; try done.
  - congruence.
  - unfold resumeTimer. rewrite decide_True by done. simpl. done.
  - unfold tick. destruct (timeLeft s <=? 1); simpl; done.
Qed.

Lemma running_untouched s : testState s = running -> untouched s.
Proof. unfold untouched. congruence. Qed.

Lemma handleWordComplete_running s :
  testState (handleWordComplete s).1 = testState s.
Proof.
  unfold handleWordComplete.
  by destruct (currentWordIndex s =? JS.len (words s) - 1).
Qed.

Section Input.
Context `{JsonCodec}.

Lemma startTest_untouched c f s st s1 st1 :
  testState s = ready ->
  startTest c f s st = Some (s1, st1) -> untouched s1.
Proof.
  intros R. unfold startTest, startFresh.
  destruct (loadSavedProgress st) as [raw | st2].
  - destruct (typed raw) as [p|]; [simpl | done]. destruct c.
    + intros [= <- _]. by apply running_untouched.
    + destruct (fetched_words f) as [m | l]; simpl.
      * by intros [= <- _].
      * destruct (strings_of_json l); [simpl | done].
        intros [= <- _]. by apply running_untouched.
  - destruct (fetched_words f) as [m | l]; simpl.
    + by intros [= <- _].
    + destruct (strings_of_json l); [simpl | done].
      intros [= <- _]. by apply running_untouched.
Qed.

Lemma commit_untouched s1 st1 s' st' :
  untouched s1 -> commit (Next s1 st1) = Next s' st' -> untouched s'.
Proof.
  intros U. unfold commit. destruct (autoAdvance_due s1) eqn:D.
  - pose proof (handleWordComplete_running s1) as T.
    destruct (handleWordComplete s1) as [s2 [p|]]; [done |].
    intros [= <- _]. apply running_untouched. simpl in T. rewrite T.
    by apply due_running.
  - by intros [= <- _].
Qed.

Lemma step_untouched e s st s' st' :
  untouched s -> step e s st = Next s' st' -> untouched s'.
Proof.
  intros U. unfold step.
  destruct (dispatch_cases e s st) as [S | [(s1 & M & ->) | (T & ->)]].
  - destruct e; simpl in S; try done. destruct S as [R S].
    unfold dispatch, screen. rewrite R, S.
    destruct (startTest confirmResume fetched s st) as [[s1 st1] |] eqn:E; [| done].
    apply commit_untouched. by eapply startTest_untouched.
  - apply commit_untouched. by eapply minor_untouched.
  - pose proof (handleWordComplete_running s) as T'.
    destruct (handleWordComplete s) as [s1 [p|]] eqn:E; [done |].
    apply commit_untouched. apply running_untouched. simpl in T'. congruence.
Qed.

Lemma run_untouched evs : ∀ s st s' st',
  untouched s -> run evs s st = Next s' st' -> untouched s'.
Proof.
  induction evs as [| e evs IH]; intros s st s' st' U; simpl.
  - by intros [= <- _].
  - destruct (step e s st) as [s1 st1 | |] eqn:E; [| done | done].
    apply IH. by eapply step_untouched.
Qed.

(** C10.  The document that is stored has no member for the input, and what
    is stored does not depend on the input.  Whenever a page that was loaded
    with any store and has since come back to its ready screen resumes from a
    stored snapshot, the session is running with an empty input. *)
Theorem resume_starts_with_empty_input (evs : list Event) (st0 : Storage)
    (s : State) (st : Storage) (f : FetchOutcome) (raw : RawProgress)
    (s' : State) (st' : Storage) :
  run evs init st0 = Next s st ->
  testState s = ready ->
  loadSavedProgress st = LoadedTrue raw ->
  step (ClickStart true f) s st = Next s' st' ->
  testState s' = running
  ∧ currentResponse s' = ""
  ∧ (∀ p, get_prop (TestProgress_to_json p) "currentResponse" = None)
  ∧ (∀ v u, snapshot (setCurrentResponse v u) = snapshot u)
  ∧ (∀ v u st1, autoSave (setCurrentResponse v u) st1 = autoSave u st1).
Proof.
  intros Run R L Step.
  assert (U : untouched s) by (eapply run_untouched; [| exact Run]; done).
  destruct (U R) as [B S].
  split; [| split; [| done]]; revert Step;
    unfold step, dispatch, screen; rewrite R, S; unfold startTest; rewrite L;
    (destruct (typed raw) as [p|]; [simpl | done]); unfold commit;
    (destruct (autoAdvance_due _) eqn:D; [| by intros [= <- _]]);
    match goal with
    | |- context [handleWordComplete ?x] =>
        pose proof (handleWordComplete_running x) as T;
        unfold handleWordComplete in *;
        destruct (currentWordIndex x =? JS.len (words x) - 1); [done |];
        by intros [= <- _]
    end.
Qed.

End Input.

(** C10, on a sample store: the snapshot of a session on its second word. *)
Lemma resume_starts_with_empty_input_witness :
  run (H := RefCodec.codec) [] init
    (autoSave (H := RefCodec.codec) Examples.on_river ∅)
  = Next init (autoSave (H := RefCodec.codec) Examples.on_river ∅)
  ∧ testState init = ready
  ∧ loadSavedProgress (H := RefCodec.codec)
      (autoSave (H := RefCodec.codec) Examples.on_river ∅)
    = LoadedTrue (mkRaw (Some (JArr [JStr "Fire"; JStr "River"])) (Some (JNum 1))
                    (Some (JArr [Response_to_json (mkResponse (Some "Fire") "Fire truck" 3)]))
                    (Some (JNum 12)))
  ∧ step (H := RefCodec.codec) (ClickStart true (FetchRejected "offline")) init
      (autoSave (H := RefCodec.codec) Examples.on_river ∅)
    = Next (setCurrentResponse "" Examples.on_river)
        (autoSave (H := RefCodec.codec) Examples.on_river ∅)
  ∧ currentResponse (setCurrentResponse "" Examples.on_river) = "".
Proof.
  assert (L : loadSavedProgress (H := RefCodec.codec)
                (autoSave (H := RefCodec.codec) Examples.on_river ∅)
              = LoadedTrue (mkRaw (Some (JArr [JStr "Fire"; JStr "River"])) (Some (JNum 1))
                  (Some (JArr [Response_to_json (mkResponse (Some "Fire") "Fire truck" 3)]))
                  (Some (JNum 12)))) by reflexivity.
  assert (S : step (H := RefCodec.codec) (ClickStart true (FetchRejected "offline")) init
                (autoSave (H := RefCodec.codec) Examples.on_river ∅)
              = Next (setCurrentResponse "" Examples.on_river)
                  (autoSave (H := RefCodec.codec) Examples.on_river ∅)) by reflexivity.
  split; [reflexivity |]. split; [reflexivity |]. split; [exact L |]. split; [exact S |].
  exact (proj1 (proj2 (resume_starts_with_empty_input (H := RefCodec.codec) []
                  (autoSave (H := RefCodec.codec) Examples.on_river ∅) init
                  (autoSave (H := RefCodec.codec) Examples.on_river ∅)
                  (FetchRejected "offline") _ _ _ eq_refl eq_refl L S))).
Defined.

End InputFacts.

(** ** Starting without prompts *)

Module StartFacts.

Section NewPage.
Context `{JsonCodec}.
Import Wat.

Lemma fetched_words_failed o : fetch_failed o -> ∃ m, fetched_words o = inl m.
Proof.
  destruct o as [m | [] status [m | data]]; simpl; eauto.
  destruct data; simpl; eauto.
  destruct (assoc_last "words" members) as [[| | | | [| x l] |] |]; simpl; eauto; done.
Qed.

(** On the current page a failed fetch leaves the ready screen in place
    with an error to dismiss, and installs no words. *)
Lemma failed_fetch_stays_ready c o s st s' st' :
  fetch_failed o -> testState s = ready -> isSaving s = false ->
  loadSavedProgress st = LoadedFalse st ->
  step (ClickStart c o) s st = Next s' st' ->
  testState s' = ready ∧ is_Some (error s') ∧ words s' = words s
  ∧ dispatch ClickDismiss s' st' = Next (setError None s') st'.
Proof.
  intros F R S L. destruct (fetched_words_failed o F) as [m Fm].
  unfold step, dispatch, screen. rewrite R, S. unfold startTest, startFresh.
  rewrite L, Fm. unfold commit, autoAdvance_due, autoSave. simpl. rewrite R. simpl.
  intros [= <- <-]. simpl. rewrite R. done.
Qed.

End NewPage.

(** C9, the failing input.  The prompt source answers with an empty list of
    words.  The earlier page ends in [running] with no words to show and no
    alert; the current page stays [ready] and shows an error. *)
Theorem old_page_runs_without_words :
  OldWat.startTest Examples.empty_fetched OldWat.init
  = Some (OldWat.mkState OldWat.running [] 0 15 "" [] None, [])
  ∧ Wat.fetch_failed Examples.empty_fetched
  ∧ Wat.step (H := RefCodec.codec) (Wat.ClickStart false Examples.empty_fetched) Wat.init ∅
    = Wat.Next (Wat.setError
                  (Some "Could not start the test: Invalid test data received") Wat.init) ∅.
Proof. repeat split; reflexivity. Qed.

End StartFacts.

(** * Further properties *)

(** ** Word-association page: what a session keeps *)

Module KeepFacts.
Import Wat WatFacts SubmitFacts WatMore.

Lemma minor_keeps s s' :
  minor s s' ->
  words s' = words s ∧ allResponses s' = allResponses s
  ∧ currentWordIndex s' = currentWordIndex s.
Proof.
  destruct 1; simpl; try done.
  - unfold resumeTimer. by case_decide.
  - unfold tick. by case_match.
Qed.

Lemma handleWordComplete_keeps s :
  words (handleWordComplete s).1 = words s
  ∧ ∃ r, allResponses (handleWordComplete s).1 = (allResponses s ++ [r])%list
         ∧ word r = JS.at_index (words s) (currentWordIndex s).
Proof.
  unfold handleWordComplete.
  destruct (currentWordIndex s =? JS.len (words s) - 1); simpl; eauto.
Qed.

Section Keep.
Context `{JsonCodec}.

(** An invariant of the handlers is an invariant of the steps that return
    to the page. *)
Lemma step_preserves (P : State -> Prop) :
  (∀ s s', minor s s' -> P s -> P s') ->
  (∀ s s', handleWordComplete s = (s', None) -> testState s = running -> P s -> P s') ->
  ∀ e s st s' st',
    ¬ starts e s -> P s -> step e s st = Next s' st' -> P s'.
Proof.
  intros Hm Hh e s st s' st' NS Ps. unfold step.
  destruct (dispatch_cases e s st) as [S | [(s1 & M & ->) | (T & ->)]]; [done | |].
  - destruct (commit_minor s1 st) as [(_ & ->) | (D & A)].
    + intros [= <- _]. by eapply Hm.
    + intros E. rewrite E in A. inversion A as [s2 E2 |]; subst.
      eapply Hh; [exact E2 | by apply due_running | by eapply Hm].
  - intros E. pose proof (commit_advance s st) as A. rewrite E in A.
    inversion A as [s2 E2 |]; subst. by eapply Hh.
Qed.

Lemma not_ready_not_starts e s : testState s ≠ ready -> ¬ starts e s.
Proof. intros R. destruct e; simpl; intros X; try done. by destruct X. Qed.

Lemma step_not_ready e s st s' st' :
  testState s ≠ ready -> step e s st = Next s' st' -> testState s' ≠ ready.
Proof.
  intros R. apply (step_preserves (fun s => testState s ≠ ready)); [| | | done].
  - intros s1 s2 M. destruct M; simpl; try done.
    + unfold resumeTimer. by case_decide.
    + unfold tick. by case_match.
  - intros s1 s2 E T _. pose proof (InputFacts.handleWordComplete_running s1) as T'.
    rewrite E in T'. simpl in T'. congruence.
  - by apply not_ready_not_starts.
Qed.

Lemma advance_grows s st r :
  advance_of s st r ->
  match r with
  | Next s' _ =>
      words s' = words s ∧ ∃ x, allResponses s' = (allResponses s ++ [x])%list
  | Submit s' _ payload =>
      words s' = words s ∧ payload = allResponses s'
      ∧ ∃ x, allResponses s' = (allResponses s ++ [x])%list
  | IllTyped => False
  end.
Proof.
  destruct (handleWordComplete_keeps s) as (W & x & A & _).
  destruct 1 as [s' E | s' p E]; rewrite E in *; simpl in *.
  - eauto.
  - apply handleWordComplete_submit in E as (_ & -> & _). simpl. eauto.
Qed.

(** A step appends at most one response and changes no word. *)
Lemma step_grows e s st :
  ¬ starts e s ->
  match step e s st with
  | Next s' _ =>
      words s' = words s
      ∧ (allResponses s' = allResponses s
         ∨ ∃ x, allResponses s' = (allResponses s ++ [x])%list)
  | Submit s' _ payload =>
      words s' = words s ∧ payload = allResponses s'
      ∧ ∃ x, allResponses s' = (allResponses s ++ [x])%list
  | IllTyped => False
  end.
Proof.
  intros NS. unfold step.
  destruct (dispatch_cases e s st) as [S | [(s1 & M & ->) | (T & ->)]]; [done | |].
  - destruct (minor_keeps _ _ M) as (W & A & _).
    destruct (commit_minor s1 st) as [(_ & ->) | (_ & Adv)].
    + split; [done | by left].
    + apply advance_grows in Adv. rewrite W, A in Adv.
      destruct (commit (Next s1 st)); [| done | done].
      destruct Adv as [? ?]. eauto.
  - pose proof (advance_grows _ _ _ (commit_advance s st)) as Adv.
    destruct (commit _); [| done | done]. destruct Adv as [? ?]. eauto.
Qed.

(** X1.  Responses are only ever appended and the words never change: in a
    session under way, whatever events follow, the responses in the cells
    (or those handed over) begin with the responses there were, and the word
    list is the same. *)
Theorem responses_append_only (evs : list Event) :
  ∀ (s : State) (st : Storage),
    testState s ≠ ready ->
    match run evs s st with
    | Next s' _ =>
        words s' = words s ∧ ∃ more, allResponses s' = (allResponses s ++ more)%list
    | Submit s' _ payload =>
        words s' = words s ∧ payload = allResponses s'
        ∧ ∃ more, payload = (allResponses s ++ more)%list
    | IllTyped => False
    end.
Proof.
  induction evs as [| e evs IH]; intros s st R; simpl.
  - split; [done |]. exists []. by rewrite app_nil_r.
  - pose proof (step_grows e s st (not_ready_not_starts e s R)) as G.
    destruct (step e s st) as [s1 st1 | s1 st1 p |] eqn:E; [| | done].
    + destruct G as [W G].
      specialize (IH s1 st1 (step_not_ready _ _ _ _ _ R E)).
      destruct (run evs s1 st1) as [s2 st2 | s2 st2 p |]; [| | done].
      * destruct IH as (W2 & more & A2). split; [congruence |].
        destruct G as [-> | [x ->]] in A2; [eauto |].
        exists (x :: more). by rewrite A2, <- app_assoc.
      * destruct IH as (W2 & P2 & more & A2). split; [congruence |]. split; [done |].
        destruct G as [-> | [x ->]] in A2; [eauto |].
        exists (x :: more). by rewrite A2, <- app_assoc.
    + destruct G as (W & P & x & A). split; [done |]. split; [done |].
      exists [x]. congruence.
Qed.

(** *** One response per word, in order *)


Lemma take_next (ws : list string) (i : Z) :
  0 <= i < JS.len ws ->
  ∃ w, JS.at_index ws i = Some w
       ∧ take (Z.to_nat (i + 1)) ws = (take (Z.to_nat i) ws ++ [w])%list.
Proof.
  intros [P L]. unfold JS.at_index, JS.len in *.
  rewrite (proj2 (Z.leb_le 0 i)) by done.
  destruct (ws !! Z.to_nat i) as [w|] eqn:E.
  - exists w. split; [done |].
    replace (Z.to_nat (i + 1)) with (S (Z.to_nat i)) by lia.
    by apply take_S_r.
  - apply lookup_ge_None in E. lia.
Qed.




Lemma step_preserves_submit (P : State -> Prop) :
  (∀ s s', minor s s' -> P s -> P s') ->
  ∀ e s st s' st' payload,
    ¬ starts e s -> P s -> step e s st = Submit s' st' payload ->
    ∃ sa, P sa ∧ testState sa = running ∧ handleWordComplete sa = (s', Some payload).
Proof.
  intros Hm e s st s' st' payload NS Ps. unfold step.
  destruct (dispatch_cases e s st) as [S | [(s1 & M & ->) | (T & ->)]]; [done | |].
  - destruct (commit_minor s1 st) as [(_ & ->) | (D & A)]; [done |].
    intros E. rewrite E in A. inversion A as [| s2 p2 E2]; subst.
    exists s1. split; [by eapply Hm |]. split; [by apply due_running | done].
  - intros E. pose proof (commit_advance s st) as A. rewrite E in A.
    inversion A as [| s2 p2 E2]; subst. by exists s.
Qed.






End Keep.
End KeepFacts.

(** ** Word-association page: the clock *)

Module ClockFacts.
Import Wat WatFacts SubmitFacts ResumeFacts KeepFacts WatMore.

(** Whatever the cells hold, the interval callback leaves a clock that is
    not negative. *)
Lemma tick_not_negative s : 0 <= timeLeft (tick s).
Proof. unfold tick. destruct (Z.leb_spec (timeLeft s) 1); simpl; lia. Qed.

Lemma minor_clock s s' :
  minor s s' -> 0 <= timeLeft s <= 15 -> 0 <= timeLeft s' <= 15.
Proof.
  intros M B. destruct M; simpl; try done.
  - unfold resumeTimer. by case_decide.
  - unfold tick. destruct (Z.leb_spec (timeLeft s) 1); simpl; lia.
Qed.

Lemma handleWordComplete_clock s :
  0 <= timeLeft s <= 15 -> 0 <= timeLeft (handleWordComplete s).1 <= 15.
Proof.
  intros B. unfold handleWordComplete.
  destruct (currentWordIndex s =? JS.len (words s) - 1); simpl; lia.
Qed.

Section Clock.
Context `{JsonCodec}.

(** X3.  In a session under way whose clock shows between 0 and 15, the
    clock shows between 0 and 15 after every event, also in the cells left
    by the hand-over. *)
Theorem clock_stays_in_range (evs : list Event) :
  ∀ (s : State) (st : Storage) (s' : State),
    testState s ≠ ready ->
    0 <= timeLeft s <= 15 ->
    state_of (run evs s st) = Some s' ->
    0 <= timeLeft s' <= 15.
Proof.
  induction evs as [| e evs IH]; intros s st s' R B; simpl.
  - by intros [= <-].
  - pose proof (not_ready_not_starts e s R) as NS.
    destruct (step e s st) as [s1 st1 | s1 st1 p |] eqn:E; [| | done].
    + apply IH; [by eapply step_not_ready |].
      revert E. apply (step_preserves (fun x => 0 <= timeLeft x <= 15)); try done.
      * apply minor_clock.
      * intros a b Hab _ Ba. pose proof (handleWordComplete_clock a Ba) as C.
        by rewrite Hab in C.
    + simpl. intros [= <-].
      apply (step_preserves_submit (fun x => 0 <= timeLeft x <= 15)) in E;
        [| apply minor_clock | done | done].
      destruct E as (sa & Ba & _ & Ha).
      pose proof (handleWordComplete_clock sa Ba) as C. by rewrite Ha in C.
Qed.








End Clock.
End ClockFacts.

(** ** Word-association page: pausing *)

Module PauseFacts.
Import Wat WatFacts SubmitFacts ResumeFacts KeepFacts WatMore.

Lemma resume_after_pause s :
  testState s = running -> timerActive s = true ->
  resumeTimer (pauseTimer (setTestState paused s)) = s.
Proof. intros T A. destruct s. simpl in *. by subst. Qed.

Section Pause.
Context `{JsonCodec}.

Lemma autoSave_not_running s st : testState s ≠ running -> autoSave s st = st.
Proof. intros N. unfold autoSave. by rewrite decide_False. Qed.

Lemma autoSave_mirrored s st : mirrored s st -> autoSave s st = st.
Proof.
  intros M. unfold autoSave. case_decide; [| done].
  apply insert_id. by apply M.
Qed.

(** A paused page whose interval is cleared does not react to ticks. *)
Lemma paused_ticks (n : nat) s st :
  testState s = paused -> timerActive s = false ->
  run (repeat Tick n) s st = Next s st.
Proof.
  intros T A. induction n as [| n IH]; [done |].
  simpl. unfold step, dispatch. rewrite A.
  replace (match screen s with _ => Next s st end) with (Next s st)
    by (by destruct (screen s)).
  unfold commit. rewrite autoSave_not_running by congruence.
  unfold autoAdvance_due. rewrite bool_decide_eq_false_2 by congruence. done.
Qed.

Lemma resume_step e s st :
  steady s -> testState s = running -> mirrored s st ->
  e = ClickResume ∨ e = KeyDown "Enter" false ->
  step e (pauseTimer (setTestState paused s)) st = Next s st.
Proof.
  intros St T M He. pose proof St as (S & E & I & W & P & C).
  destruct C as [[_ A] | [C _]]; [| congruence].
  assert (D : dispatch e (pauseTimer (setTestState paused s)) st = Next s st).
  { pose proof (resume_after_pause s T A) as R.
    destruct He as [-> | ->]; unfold dispatch; simpl; by rewrite R. }
  unfold step. rewrite D. unfold commit.
  rewrite positive_not_due by done. by rewrite autoSave_mirrored.
Qed.

Lemma pause_step e s st :
  steady s -> testState s = running ->
  e = ClickPause ∨ e = KeyDown "Escape" false ->
  step e s st = Next (pauseTimer (setTestState paused s)) st.
Proof.
  intros St T He. pose proof St as (S & E & I & W & P & C).
  assert (D : dispatch e s st = Next (pauseTimer (setTestState paused s)) st).
  { destruct He as [-> | ->]; unfold dispatch, screen, handleKeyPress; rewrite T.
    - by destruct (words s).
    - done. }
  unfold step. rewrite D. unfold commit.
  rewrite autoSave_not_running by (simpl; congruence).
  unfold autoAdvance_due. simpl. done.
Qed.

(** X5.  Pausing a running session, waiting any number of seconds and
    resuming gives back exactly the cells and the store from before the
    pause, by the buttons as well as by Escape and Enter: the clock and the
    typed text are as they were and no response was captured. *)
Theorem pause_then_resume_changes_nothing (s : State) (st : Storage) (n : nat) :
  steady s ->
  testState s = running ->
  mirrored s st ->
  run (pause_by_buttons n) s st = Next s st
  ∧ run (pause_by_keys n) s st = Next s st.
Proof.
  intros St T M.
  assert (G : ∀ e1 e2, e1 = ClickPause ∨ e1 = KeyDown "Escape" false ->
                       e2 = ClickResume ∨ e2 = KeyDown "Enter" false ->
                       run (e1 :: repeat Tick n ++ [e2])%list s st = Next s st).
  { intros e1 e2 H1 H2.
    change (e1 :: repeat Tick n ++ [e2])%list with ([e1] ++ (repeat Tick n ++ [e2]))%list.
    rewrite run_app. simpl. rewrite (pause_step e1 s st St T H1).
    rewrite run_app, paused_ticks by done.
    simpl. by rewrite (resume_step e2 s st St T M H2). }
  split; apply G; auto.
Qed.

(** X6.  While the session is paused no event captures a response or moves
    the clock: every event leaves the words, the index, the responses, the
    clock and the typed text as they are, and the page is paused or running
    afterwards. *)
Theorem paused_session_is_frozen (e : Event) (s : State) (st : Storage) :
  steady s ->
  testState s = paused ->
  ∃ s', step e s st = Next s' (autoSave s' st)
        ∧ snapshot s' = snapshot s
        ∧ currentResponse s' = currentResponse s
        ∧ (testState s' = paused ∨ testState s' = running).
Proof.
  intros St T. pose proof St as (S & E & I & W & P & C).
  destruct C as [[C _] | [_ A]]; [congruence |].
  assert (D : ∃ s', dispatch e s st = Next s' st
                    ∧ snapshot s' = snapshot s
                    ∧ currentResponse s' = currentResponse s
                    ∧ (testState s' = paused ∨ testState s' = running)).
  { destruct e; unfold dispatch, screen, handleKeyPress, resumeTimer; rewrite ?T, ?A;
      simpl; rewrite ?decide_True by done;
      try (by eexists; repeat split; eauto).
    destruct (String.eqb k "Enter"); simpl; rewrite ?decide_True by done;
      eexists; repeat split; eauto. }
  destruct D as (s' & D & Sn & B & R).
  exists s'. unfold step. rewrite D. unfold commit.
  rewrite positive_not_due; [done |].
  assert (L : timeLeft s' = timeLeft s) by (by injection Sn).
  lia.
Qed.

End Pause.
End PauseFacts.

(** ** Word-association page: the stored progress *)

Module ProgressFacts.
Import Wat WatFacts SaveFacts StoreFacts WatMore.

Section Progress.
Context `{JsonCodec}.

Lemma autoSave_other s st k : k ≠ key -> autoSave s st !! k = st !! k.
Proof.
  intros N. unfold autoSave. case_decide; [| done].
  by rewrite lookup_insert_ne.
Qed.

Lemma loadSavedProgress_other st st' k :
  k ≠ key -> loadSavedProgress st = LoadedFalse st' -> st' !! k = st !! k.
Proof.
  intros N. unfold loadSavedProgress.
  destruct (st !! key) as [saved |]; [| by intros [= <-]].
  destruct (JS.truthy saved); [| by intros [= <-]].
  destruct (JSON_parse saved) as [[] |]; intros [= <-]; by rewrite lookup_delete_ne.
Qed.

Lemma startFresh_store f s st s' st' : startFresh f s st = Some (s', st') -> st' = st.
Proof.
  unfold startFresh. destruct (fetched_words f) as [m | l].
  - by intros [= _ <-].
  - destruct (strings_of_json l); simpl; [by intros [= _ <-] | done].
Qed.

Lemma startTest_other c f s st s' st' k :
  k ≠ key -> startTest c f s st = Some (s', st') -> st' !! k = st !! k.
Proof.
  intros N. unfold startTest.
  destruct (loadSavedProgress st) as [raw | st1] eqn:L.
  - destruct (typed raw) as [p |]; simpl; [| done]. destruct c.
    + by intros [= _ <-].
    + intros E. apply startFresh_store in E as ->.
      unfold clearSavedProgress. by rewrite lookup_delete_ne.
  - intros E. apply startFresh_store in E as ->.
    by eapply loadSavedProgress_other.
Qed.

Lemma dispatch_other e s st k :
  k ≠ key ->
  match store_of (dispatch e s st) with
  | Some st' => st' !! k = st !! k
  | None => True
  end.
Proof.
  intros N.
  destruct (dispatch_cases e s st) as [S | [(s1 & M & ->) | (T & ->)]]; [| done |].
  - destruct e; try done. destruct S as [R I]. unfold dispatch, screen. rewrite R, I.
    destruct (startTest confirmResume fetched s st) as [[s' st'] |] eqn:E; [| done].
    simpl. by eapply startTest_other.
  - pose proof (commit_advance s st) as A. destruct (handleWordComplete s) as [s' [p |]]; done.
Qed.

Lemma commit_other r k :
  k ≠ key ->
  match store_of (commit r), store_of r with
  | Some st', Some st => st' !! k = st !! k
  | None, None => True
  | _, _ => False
  end.
Proof.
  intros N. destruct r as [s st | s st p |]; simpl; [| by apply autoSave_other | done].
  destruct (autoAdvance_due s); simpl; [| by apply autoSave_other].
  destruct (handleWordComplete s) as [s' [p |]]; simpl; by rewrite !autoSave_other.
Qed.

Lemma save_other_from client p k (n : nat) : ∀ (r : nat) σ,
  k ≠ key -> (2 - r <= n)%nat ->
  store (saveSessionAndFinish client false p r σ) !! k = store σ !! k.
Proof.
  induction n as [| n IH]; intros r σ N Hr;
    destruct (client (length (attempts (log σ))) p) as [id | m] eqn:E.
  - rewrite (save_ok _ _ _ _ id E). simpl.
    unfold clearSavedProgress. by rewrite lookup_delete_ne.
  - by rewrite (save_give_up _ _ _ _ m E) by lia.
  - rewrite (save_ok _ _ _ _ id E). simpl.
    unfold clearSavedProgress. by rewrite lookup_delete_ne.
  - destruct (decide (r < 2)%nat).
    + rewrite (save_retry _ _ _ _ m E) by done. rewrite IH by (done || lia). done.
    + by rewrite (save_give_up _ _ _ _ m E) by lia.
Qed.

Lemma save_other client seen p (r : nat) σ k :
  k ≠ key -> store (saveSessionAndFinish client seen p r σ) !! k = store σ !! k.
Proof.
  intros N. destruct seen.
  - by simp saveSessionAndFinish.
  - by apply (save_other_from client p k (2 - r)).
Qed.

(** X7.  The page touches one entry of the session storage only: whatever
    the event, and whatever a save comes to, every other key holds after it
    what it held before. *)
Theorem only_the_progress_entry_is_touched (k : string) :
  k ≠ key ->
  (∀ e s st,
     match store_of (step e s st) with
     | Some st' => st' !! k = st !! k
     | None => True
     end)
  ∧ (∀ client seen p r σ,
       store (saveSessionAndFinish client seen p r σ) !! k = store σ !! k).
Proof.
  intros N. split; [| intros; by apply save_other].
  intros e s st. unfold step.
  pose proof (dispatch_other e s st k N) as D.
  pose proof (commit_other (dispatch e s st) k N) as C.
  destruct (store_of (commit (dispatch e s st))) as [st2 |]; [| done].
  destruct (store_of (dispatch e s st)) as [st1 |]; [| done].
  congruence.
Qed.

(** X8.  What the page stores while running is what the next page load
    finds: loading after an auto-save gives back the snapshot of the cells,
    a later auto-save replaces the earlier one, and after clearing nothing
    is found and clearing again changes nothing. *)
Theorem progress_store_contract (s : State) (st : Storage) :
  testState s = running ->
  round_trips (TestProgress_to_json (snapshot s)) ->
  (∃ raw, loadSavedProgress (autoSave s st) = LoadedTrue raw
          ∧ typed raw = Some (snapshot s))
  ∧ (∀ s2, testState s2 = running -> autoSave s2 (autoSave s st) = autoSave s2 st)
  ∧ loadSavedProgress (clearSavedProgress (autoSave s st))
    = LoadedFalse (clearSavedProgress st)
  ∧ clearSavedProgress (clearSavedProgress st) = clearSavedProgress st.
Proof.
  intros T R. split; [| split; [| split]].
  - apply load_snapshot; [| done]. by apply handed_over_store_any.
  - intros s2 T2. unfold autoSave. rewrite !decide_True by done. apply insert_insert_eq.
  - unfold clearSavedProgress, autoSave. rewrite decide_True by done.
    rewrite delete_insert_eq. apply load_absent, lookup_delete_eq.
  - unfold clearSavedProgress. apply delete_delete_eq.
Qed.

(** X9.  Answering no to the resume question throws the stored progress
    away: the entry is gone whatever the prompt source answers; when the
    words arrive the session starts exactly as it would have with nothing
    stored; when they do not, the page is as it would have been with nothing
    stored, except that [words] holds the words of the discarded snapshot. *)
Theorem declining_resume_starts_afresh (f : FetchOutcome) (s : State)
    (st : Storage) (raw : RawProgress) (p : TestProgress) :
  loadSavedProgress st = LoadedTrue raw ->
  typed raw = Some p ->
  (∀ s' st', startTest false f s st = Some (s', st') -> st' = delete key st)
  ∧ (∀ l, fetched_words f = inr l ->
       startTest false f s st = startTest false f s (delete key st))
  ∧ (∀ m, fetched_words f = inl m ->
       ∃ s', startTest false f s (delete key st) = Some (s', delete key st)
             ∧ startTest false f s st = Some (setWords (tp_words p) s', delete key st)).
Proof.
  intros L Ty.
  pose proof (load_absent (delete key st) (lookup_delete_eq st key)) as L2.
  unfold startTest. rewrite L, L2, Ty. simpl. unfold clearSavedProgress.
  split; [| split].
  - intros s' st' E. by apply startFresh_store in E.
  - intros l E. unfold startFresh. rewrite E.
    destruct (strings_of_json l); [| done]. simpl. done.
  - intros m E. unfold startFresh. rewrite E. eexists. split; [reflexivity |].
    done.
Qed.

End Progress.
End ProgressFacts.

(** ** Word-association page: one chain of attempts to save *)

Module ChainFacts.
Import Wat WatFacts SaveFacts WatMore.

Lemma posts_cons p o outs :
  outs ≠ [] -> posts p (o :: outs) = Post p o :: Sleep 2000 :: posts p outs.
Proof. by destruct outs. Qed.

Lemma attempts_posts p outs : attempts (posts p outs) = outs.
Proof.
  induction outs as [| o outs IH]; [done |].
  destruct outs as [| o' outs]; [done |].
  rewrite posts_cons by done.
  change (attempts (Post p o :: Sleep 2000 :: posts p (o' :: outs)))
    with (o :: attempts (posts p (o' :: outs))).
  by rewrite IH.
Qed.

Lemma saved_cells id u :
  setIsSaving false (setTestState finished (setSessionId (Some id)
    (setError None (setIsSaving true u))))
  = setTestState finished (setSessionId (Some id) (setError None (setIsSaving false u))).
Proof. by destruct u. Qed.

Lemma saved_after_failure id m u :
  setTestState finished (setSessionId (Some id)
    (setError None (setIsSaving false (setError (Some m) (setIsSaving false u)))))
  = setTestState finished (setSessionId (Some id) (setError None (setIsSaving false u))).
Proof. by destruct u. Qed.

Lemma answers_single client p (n : nat) o :
  client n p = o -> answers client p n [o].
Proof. intros E [| i] o'; [| done]. intros [= <-]. by rewrite Nat.add_0_r. Qed.

Lemma failed_before_last_single o : failed_before_last [o].
Proof. intros i o' _ L. simpl in L. lia. Qed.

Lemma chain_from client p (k : nat) : ∀ (r : nat) σ,
  (r + k = 2)%nat ->
  ∃ outs,
    log (saveSessionAndFinish client false p r σ) = (log σ ++ posts p outs)%list
    ∧ (1 <= length outs <= 3 - r)%nat
    ∧ answers client p (length (attempts (log σ))) outs
    ∧ failed_before_last outs
    ∧ chain_end (ui σ) (store σ) outs (saveSessionAndFinish client false p r σ)
    ∧ (∀ m, last outs = Some (SaveError m) -> length outs = (3 - r)%nat).
Proof.
  assert (Ok : ∀ r σ id, (r <= 2)%nat ->
            client (length (attempts (log σ))) p = SaveOk id ->
            ∃ outs,
              log (saveSessionAndFinish client false p r σ) = (log σ ++ posts p outs)%list
              ∧ (1 <= length outs <= 3 - r)%nat
              ∧ answers client p (length (attempts (log σ))) outs
              ∧ failed_before_last outs
              ∧ chain_end (ui σ) (store σ) outs (saveSessionAndFinish client false p r σ)
              ∧ (∀ m, last outs = Some (SaveError m) -> length outs = (3 - r)%nat)).
  { intros r σ id Hr E. exists [SaveOk id]. rewrite (save_ok _ _ _ _ id E).
    split; [done |]. split; [simpl; lia |].
    split; [by apply answers_single |]. split; [apply failed_before_last_single |].
    split; [split; [apply saved_cells | done] | by intros m [=]]. }
  induction k as [| k IH]; intros r σ Hr.
  - destruct (client (length (attempts (log σ))) p) as [id | m] eqn:E.
    + apply (Ok r σ id); [lia | done].
    + exists [SaveError m]. rewrite (save_give_up _ _ _ _ m E) by lia.
      split; [done |]. split; [simpl; lia |].
      split; [by apply answers_single |]. split; [apply failed_before_last_single |].
      split; [split; [apply failed_again | done] |]. intros _ _. simpl. lia.
  - destruct (client (length (attempts (log σ))) p) as [id | m] eqn:E.
    + apply (Ok r σ id); [lia | done].
    + rewrite (save_retry _ _ _ _ m E) by lia.
      set (σ1 := mkSys _ _ _).
      destruct (IH (r + 1)%nat σ1 ltac:(lia)) as (outs & Lg & Len & An & Fb & Ce & Lm).
      assert (NE : outs ≠ []) by (destruct outs; [simpl in Len; lia | done]).
      exists (SaveError m :: outs). rewrite Lg. subst σ1. simpl log.
      rewrite posts_cons by done. rewrite <- app_assoc.
      split; [done |]. split; [simpl; lia |]. split; [| split; [| split]].
      * intros [| i] o; simpl.
        -- intros [= <-]. by rewrite Nat.add_0_r.
        -- intros Hi. apply An in Hi. simpl in Hi.
           rewrite attempts_app, length_app in Hi. simpl in Hi.
           by replace (length (attempts (log σ)) + S i)%nat
                with (length (attempts (log σ)) + 1 + i)%nat by lia.
      * intros [| i] o; simpl.
        -- by intros [= <-] _.
        -- intros Hi Hl. eapply Fb; [done | lia].
      * unfold chain_end in *. rewrite last_cons.
        destruct (last outs) as [[id | m'] |] eqn:La; [| | done]; simpl in Ce.
        -- destruct Ce as [U S]. split; [| done].
           rewrite U, failed_again. apply saved_after_failure.
        -- destruct Ce as [U S]. split; [| done].
           rewrite U, failed_again. apply failed_twice.
      * intros m'. rewrite last_cons. destruct (last outs) as [o |] eqn:La.
        -- intros [= ->]. specialize (Lm m' eq_refl). simpl. lia.
        -- by apply last_None in La.
Qed.

(** X10.  One call of [saveSessionAndFinish] from the final advance, with
    any submission service: between one and three attempts are made, two
    seconds apart, each with the same responses; every attempt but the last
    one failed; the chain ends with the first success, which finishes the
    session, records the id and removes the stored progress, or with the
    third failure, which leaves the session and the stored progress as they
    were with the error of the last attempt shown. *)
Theorem save_chain_with_any_service (client : SubmissionClient)
    (p : list Response) (σ : Sys) :
  ∃ outs,
    log (saveSessionAndFinish client false p 0 σ) = (log σ ++ posts p outs)%list
    ∧ (1 <= length outs <= 3)%nat
    ∧ answers client p (length (attempts (log σ))) outs
    ∧ failed_before_last outs
    ∧ chain_end (ui σ) (store σ) outs (saveSessionAndFinish client false p 0 σ)
    ∧ (∀ m, last outs = Some (SaveError m) -> length outs = 3%nat).
Proof. apply (chain_from client p 2 0 σ). lia. Qed.

End ChainFacts.

(** ** Asking for the analysis *)

Module AnalysisFacts.
Import Analysis.

Lemma requests_app l1 l2 : requests (l1 ++ l2) = (requests l1 ++ requests l2)%list.
Proof.
  induction l1 as [| [i o | ms] l1 IH]; simpl; [done | by rewrite IH | done].
Qed.

(** X11.  One click on "Analyze My Responses", with any analysis service.
    Without a session id (null or 0) nothing is requested and no cell
    changes.  With one, one or two requests are made for that id, three
    seconds apart, the second only after the first failed; the cells end
    with [isAnalyzing] false and either the analysis received and no error,
    or no analysis and the error of the second failure. *)
Theorem analysis_chain_with_any_service (client : Client) (σ : Sys) :
  (no_session (sessionId (ui σ)) = true -> handleAnalysis client 0 σ = σ)
  ∧ (∀ id, sessionId (ui σ) = Some id -> id ≠ 0 ->
       ∃ outs,
         log (handleAnalysis client 0 σ) = (log σ ++ posts id outs)%list
         ∧ (∀ i o, outs !! i = Some o ->
              o = client (length (requests (log σ)) + i)%nat id)
         ∧ chain_end outs (ui (handleAnalysis client 0 σ))
         ∧ isAnalyzing (ui (handleAnalysis client 0 σ)) = false
         ∧ sessionId (ui (handleAnalysis client 0 σ)) = Some id).
Proof.
  split.
  - intros N. simp handleAnalysis. destruct (sessionId (ui σ)) as [id |]; simpl in *.
    + rewrite N. by simp handleAnalysis.
    + done.
  - intros id S N. apply Z.eqb_neq in N.
    simp handleAnalysis. rewrite S. simpl. rewrite N. simpl.
    destruct (client (length (requests (log σ))) id) as [a | m] eqn:E0; simpl.
    + exists [Received a]. repeat split; try done.
      intros [| i] o; [| done]. intros [= <-]. by rewrite Nat.add_0_r.
    + simp handleAnalysis. simpl. rewrite S. simpl. rewrite N. simpl.
      rewrite requests_app, length_app. simpl.
      destruct (client (length (requests (log σ)) + 1)%nat id) as [a | m'] eqn:E1; simpl.
      * exists [Failed m; Received a]. rewrite <- app_assoc. repeat split; try done.
        intros [| [| i]] o; [| | done]; intros [= <-]; [by rewrite Nat.add_0_r | done].
      * exists [Failed m; Failed m']. rewrite <- app_assoc. repeat split; try done.
        intros [| [| i]] o; [| | done]; intros [= <-]; [by rewrite Nat.add_0_r | done].
Qed.

End AnalysisFacts.

(** ** Situation-reaction page: further properties *)

Module SrtKeepFacts.
Import Srt SrtFacts SrtMore.

(** The three things an event can come to. *)
Lemma srt_dispatch_shape e s :
  dispatch e s = Next s
  ∨ (∃ v, dispatch e s = Next (setCurrentResponse v s))
  ∨ (isSaving s = false ∧ JS.truthy (JS.trim (currentResponse s)) = true
     ∧ dispatch e s = after (handleNext (handled_at e) s)).
Proof.
  unfold dispatch, handleKeyPress.
  destruct (isSaving s) eqn:I, (JS.truthy (JS.trim (currentResponse s))) eqn:T;
    destruct (control e), (screen s); eauto;
    repeat match goal with
    | |- context [match testState s with _ => _ end] => destruct (testState s)
    | |- context [if ?b then _ else _] => destruct b
    end; eauto;
    left; unfold handleNext; rewrite I, T; done.
Qed.


(** X12.  While a save is in flight no event captures a response or moves
    on: the responses and the index stay as they are. *)
Theorem srt_nothing_captured_while_saving (e : Event) (s : State) :
  isSaving s = true ->
  ∃ s', step e s = Next s'
        ∧ allResponses s' = allResponses s
        ∧ currentSituationIndex s' = currentSituationIndex s
        ∧ situations s' = situations s
        ∧ isSaving s' = true.
Proof.
  intros I. unfold step.
  destruct (srt_dispatch_shape e s) as [-> | [(v & ->) | (I' & _)]]; [| | congruence];
    simpl; eexists; (split; [reflexivity |]);
    match goal with
    | |- context [startTimeEffect ?b ?n (wordCountEffect ?x)] =>
        destruct (effects_keep b n x) as (E1 & E2 & E3); rewrite E1, E2, E3
    end; repeat split; try done;
    unfold startTimeEffect, wordCountEffect; by case_match.
Qed.





End SrtKeepFacts.

(** ** The earlier word-association page: a whole session *)

Module OldWatFacts.
Import OldWat OldWatRun.

Lemma old_tick_step s :
  under_way s ->
  match step Tick s with
  | Next s' =>
      under_way s' ∧ words s' = words s ∧ elapsed s' = elapsed s + 1
  | Submit s' payload =>
      elapsed s + 1 = 15 * JS.len (words s)
      ∧ map word payload = map Some (words s)
      ∧ length payload = length (words s)
      ∧ payload = (allResponses s
                   ++ [mkResponse (JS.at_index (words s) (currentWordIndex s))
                         (currentResponse s)])%list
      ∧ s' = setCurrentResponse "" (setAllResponses payload (setTimeLeft 0 s))
  end.
Proof.
  intros (R & Sid & B & L & M).
  unfold step, dispatch, tick. rewrite R.
  replace (match screen s with _ => _ end)
    with (setTimeLeft (timeLeft s - 1) s).
  2:{ rewrite bool_decide_eq_true_2 by done. simpl.
      rewrite (proj2 (Z.ltb_lt 0 (timeLeft s))) by lia. by destruct (screen s). }
  unfold autoAdvance. simpl. rewrite R, bool_decide_eq_true_2 by done. simpl.
  rewrite (proj2 (Z.ltb_lt 0 (JS.len (words s)))) by lia. simpl.
  destruct (Z.leb_spec (timeLeft s - 1) 0) as [Z0 | Z0].
  - assert (T1 : timeLeft s = 1) by lia.
    destruct (KeepFacts.take_next _ _ B) as (w & Hw & Ht).
    destruct (Z.eqb_spec (currentWordIndex s) (JS.len (words s) - 1)) as [E | E].
    + assert (Hall : map word (allResponses s
                       ++ [mkResponse (JS.at_index (words s) (currentWordIndex s))
                             (currentResponse s)])
                     = map Some (words s)).
      { rewrite map_app, M. simpl. rewrite Hw.
        change [Some w] with (map (@Some string) [w]). rewrite <- map_app, <- Ht.
        f_equal. apply take_ge. unfold JS.len in E. lia. }
      split; [unfold elapsed; lia |]. split; [done |]. split.
      * apply (f_equal length) in Hall. by rewrite !length_map in Hall.
      * split; [done |]. rewrite T1. done.
    + unfold under_way, elapsed. simpl. repeat split; try done; try lia.
      rewrite map_app, M, Ht, map_app. simpl. by rewrite Hw.
  - unfold under_way, elapsed. simpl. repeat split; try done; lia.
Qed.

Lemma old_input_step v s :
  under_way s -> step (Input v) s = Next (setCurrentResponse v s).
Proof.
  intros (R & Sid & B & L & M). unfold step, dispatch, screen. rewrite R.
  assert (W : words s ≠ []).
  { intros W. rewrite W in B. unfold JS.len in B. simpl in B. lia. }
  destruct (words s) eqn:Ws; [done |].
  unfold autoAdvance. simpl. rewrite R, Ws.
  rewrite (proj2 (Z.leb_gt (timeLeft s) 0)) by lia.
  by rewrite andb_false_r.
Qed.

Lemma old_run_under_way evs : ∀ s,
  under_way s ->
  match run evs s with
  | Next s' =>
      under_way s' ∧ words s' = words s ∧ elapsed s' = elapsed s + ticks evs
  | Submit s' payload =>
      15 * JS.len (words s) <= elapsed s + ticks evs
      ∧ map word payload = map Some (words s)
      ∧ length payload = length (words s)
      ∧ payload = allResponses s'
      ∧ sessionId s' = None
  end.
Proof.
  assert (TP : ∀ l, 0 <= ticks l).
  { induction l as [| [] l IH]; simpl; lia. }
  induction evs as [| e evs IH]; intros s U; simpl.
  - split; [done |]. split; [done | lia].
  - destruct e as [v |].
    + rewrite (old_input_step v s U).
      assert (U' : under_way (setCurrentResponse v s)) by done.
      specialize (IH _ U'). by destruct (run evs (setCurrentResponse v s)).
    + pose proof (old_tick_step s U) as St.
      destruct (step Tick s) as [s1 | s1 p].
      * destruct St as (U1 & W1 & E1). specialize (IH _ U1).
        destruct (run evs s1); rewrite <- W1, (Z.add_assoc (elapsed s)), <- E1; done.
      * destruct St as (E & Mp & Lp & Hp & ->). pose proof (TP evs).
        destruct U as (_ & Sid & _). repeat split; try done. lia.
Qed.

(** X15.  On the earlier page the clock is the only way on: in a session
    under way the seconds gone by are fifteen for every word answered plus
    those used of the current word, whatever is typed; the responses are
    for the words before the current one, in order; and the responses are
    handed over, one per word, no earlier than fifteen seconds per word
    after the start. *)
Theorem old_page_moves_on_by_the_clock_only (evs : list Event) (s : State) :
  under_way s ->
  match run evs s with
  | Next s' =>
      under_way s' ∧ words s' = words s ∧ elapsed s' = elapsed s + ticks evs
  | Submit _ payload =>
      15 * JS.len (words s) <= elapsed s + ticks evs
      ∧ map word payload = map Some (words s)
      ∧ length payload = length (words s)
  end.
Proof.
  intros U. pose proof (old_run_under_way evs s U) as G.
  destruct (run evs s); [done |]. by destruct G as (A & B & C & _).
Qed.

(** X16.  On the earlier page the second that runs the clock of the last
    word out captures the text exactly as typed, and the page shows the
    finished screen whatever the save comes to.  When the save fails no
    session id is recorded, and a click on "Analyze My Responses" then
    requests nothing and changes nothing. *)
Theorem old_page_finishes_whatever_the_save_comes_to (s : State)
    (o : Wat.SaveOutcome) :
  under_way s ->
  timeLeft s = 1 ->
  currentWordIndex s = JS.len (words s) - 1 ->
  ∃ s', step Tick s
        = Submit s' (allResponses s
                     ++ [mkResponse (JS.at_index (words s) (currentWordIndex s))
                           (currentResponse s)])%list
        ∧ testState (saveSessionAndFinish o s') = finished
        ∧ allResponses (saveSessionAndFinish o s') = allResponses s'
        ∧ (∀ id, o = Wat.SaveOk id -> sessionId (saveSessionAndFinish o s') = Some id)
        ∧ (∀ m, o = Wat.SaveError m ->
             sessionId (saveSessionAndFinish o s') = None
             ∧ ∀ client σ,
                 handleAnalysis client (sessionId (saveSessionAndFinish o s')) σ = σ).
Proof.
  intros U T I. pose proof (old_tick_step s U) as St.
  destruct U as (R & Sid & B & L & M).
  destruct (step Tick s) as [s1 | s1 p] eqn:E.
  - destruct St as (_ & _ & El). exfalso.
    revert E. unfold step, dispatch, tick. rewrite R, bool_decide_eq_true_2 by done.
    simpl. rewrite (proj2 (Z.ltb_lt 0 (timeLeft s))) by lia.
    replace (match screen s with _ => _ end)
      with (setTimeLeft (timeLeft s - 1) s) by (by destruct (screen s)).
    unfold autoAdvance. simpl. rewrite R, bool_decide_eq_true_2 by done. simpl.
    rewrite (proj2 (Z.ltb_lt 0 (JS.len (words s)))) by lia.
    rewrite (proj2 (Z.leb_le (timeLeft s - 1) 0)) by lia.
    rewrite (proj2 (Z.eqb_eq _ _) I). done.
  - destruct St as (_ & _ & _ & -> & ->). eexists. split; [reflexivity |].
    destruct o as [id | m]; simpl; repeat split; try done.
    + by intros id' [= <-].
    + by rewrite Sid.
Qed.

End OldWatFacts.

(** ** Word-association page: starting again, and the explicit ways on *)

Module StartAgainFacts.
Import Wat WatFacts StoreFacts ResumeFacts ProgressFacts WatMore.

Section StartAgain.
Context `{JsonCodec}.

(** What [loadSavedProgress] leaves behind when it finds nothing holds
    nothing to find. *)
Lemma load_false_again st st1 :
  loadSavedProgress st = LoadedFalse st1 -> loadSavedProgress st1 = LoadedFalse st1.
Proof.
  unfold loadSavedProgress at 1.
  destruct (st !! key) as [saved |] eqn:E.
  - destruct (JS.truthy saved) eqn:T.
    + destruct (JSON_parse saved) as [[] |]; intros [= <-];
        apply load_absent, lookup_delete_eq.
    + intros [= <-]. unfold loadSavedProgress. by rewrite E, T.
  - intros [= <-]. by apply load_absent.
Qed.

Lemma failed_start c f s st s1 st1 m :
  fetched_words f = inl m ->
  startTest c f s st = Some (s1, st1) ->
  testState s = ready ->
  testState s1 = ready ->
  error s1 = Some ("Could not start the test: " ++ m)
  ∧ isSaving s1 = false
  ∧ loadSavedProgress st1 = LoadedFalse st1.
Proof.
  intros F. unfold startTest, startFresh. rewrite F.
  destruct (loadSavedProgress st) as [raw | st2] eqn:L.
  - destruct (typed raw) as [p |]; simpl; [| done]. destruct c.
    + intros [= <- <-]. simpl. congruence.
    + intros [= <- <-] _ _. simpl. repeat split.
      apply load_absent, lookup_delete_eq.
  - intros [= <- <-] _ _. simpl. repeat split. by eapply load_false_again.
Qed.

(** X17.  A start that fails can be repeated.  When the prompt source fails
    with message [m], the page stays on its ready screen with the error
    "Could not start the test: [m]" and the start button enabled; Dismiss
    clears the error; and a further click on the start button, answered
    with a list of words, starts a session on the first word with a full
    clock, no responses, no error, and the progress stored. *)
Theorem failed_start_can_be_repeated (c c' : bool) (f g : FetchOutcome)
    (s s1 : State) (st st1 : Storage) (m : string) (l : list JSON)
    (ws : list string) :
  testState s = ready ->
  isSaving s = false ->
  fetched_words f = inl m ->
  step (ClickStart c f) s st = Next s1 st1 ->
  testState s1 = ready ->
  fetched_words g = inr l ->
  strings_of_json l = Some ws ->
  error s1 = Some ("Could not start the test: " ++ m)
  ∧ isSaving s1 = false
  ∧ step ClickDismiss s1 st1 = Next (setError None s1) st1
  ∧ ∃ s2, step (ClickStart c' g) s1 st1 = Next s2 (autoSave s2 st1)
          ∧ testState s2 = running ∧ words s2 = ws
          ∧ currentWordIndex s2 = 0 ∧ allResponses s2 = [] ∧ timeLeft s2 = 15
          ∧ currentResponse s2 = "" ∧ error s2 = None ∧ timerActive s2 = true.
Proof.
  intros R I F St R1 G Ws.
  assert (E : startTest c f s st = Some (s1, st1)).
  { revert St. unfold step, dispatch, screen. rewrite R, I.
    destruct (startTest c f s st) as [[s' st'] |] eqn:E; [| done].
    unfold commit. destruct (autoAdvance_due s') eqn:D.
    - destruct (handleWordComplete s') as [s'' [p |]] eqn:Hw; [done |].
      intros [= <- <-]. pose proof (InputFacts.handleWordComplete_running s') as T.
      rewrite Hw in T. simpl in T. apply SubmitFacts.due_running in D. congruence.
    - intros [= <- <-]. unfold autoSave. by rewrite decide_False by congruence. }
  destruct (failed_start _ _ _ _ _ _ _ F E R R1) as (Er & I1 & L1).
  split; [done |]. split; [done |]. split.
  - unfold step, dispatch, screen. rewrite R1, Er. unfold commit, autoAdvance_due.
    simpl. rewrite R1. simpl. unfold autoSave. simpl. by rewrite decide_False by congruence.
  - unfold step, dispatch, screen. rewrite R1, I1. unfold startTest, startFresh.
    rewrite L1, G, Ws. simpl. unfold commit, autoAdvance_due. simpl.
    eexists. split; [reflexivity |]. done.
Qed.


End StartAgain.
End StartAgainFacts.

(** ** The further properties on sample sessions *)

Module SampleRuns.
Import Wat WatMore.

(** X1 on the second of two words: typing, then Ctrl+Enter. *)
Lemma responses_append_only_witness :
  testState Examples.on_river ≠ ready
  ∧ match run (H := RefCodec.codec) [Input "a bridge"; KeyDown "Enter" true]
            Examples.on_river ∅ with
    | Next s' _ =>
        words s' = words Examples.on_river
        ∧ ∃ more, allResponses s' = (allResponses Examples.on_river ++ more)%list
    | Submit s' _ payload =>
        words s' = words Examples.on_river ∧ payload = allResponses s'
        ∧ ∃ more, payload = (allResponses Examples.on_river ++ more)%list
    | IllTyped => False
    end.
Proof.
  assert (R : testState Examples.on_river ≠ ready) by discriminate.
  split; [exact R |].
  exact (KeepFacts.responses_append_only (H := RefCodec.codec)
           [Input "a bridge"; KeyDown "Enter" true] Examples.on_river ∅ R).
Defined.


(** X3 on the second of two words, left alone for twelve seconds. *)
Lemma clock_stays_in_range_witness :
  testState Examples.on_river ≠ ready
  ∧ 0 <= timeLeft Examples.on_river <= 15
  ∧ state_of (run (H := RefCodec.codec) [Tick; Tick] Examples.on_river ∅)
    = Some (setTimeLeft 10 Examples.on_river)
  ∧ 0 <= timeLeft (setTimeLeft 10 Examples.on_river) <= 15.
Proof.
  assert (R : testState Examples.on_river ≠ ready) by discriminate.
  assert (B : 0 <= timeLeft Examples.on_river <= 15) by (simpl; lia).
  assert (E : state_of (run (H := RefCodec.codec) [Tick; Tick] Examples.on_river ∅)
              = Some (setTimeLeft 10 Examples.on_river)) by reflexivity.
  split; [exact R |]. split; [exact B |]. split; [exact E |].
  exact (ClockFacts.clock_stays_in_range (H := RefCodec.codec) [Tick; Tick]
           Examples.on_river ∅ (setTimeLeft 10 Examples.on_river) R B E).
Defined.

Lemma on_river_steady : steady Examples.on_river.
Proof.
  unfold steady. simpl. repeat split; try done. left. done.
Defined.

Lemma on_river_mirrored :
  mirrored (H := RefCodec.codec) Examples.on_river
    (autoSave (H := RefCodec.codec) Examples.on_river ∅).
Proof. intros _. reflexivity. Defined.


(** X5 on the second of two words: a pause of thirty seconds. *)
Lemma pause_then_resume_changes_nothing_witness :
  steady Examples.on_river
  ∧ testState Examples.on_river = running
  ∧ mirrored (H := RefCodec.codec) Examples.on_river
      (autoSave (H := RefCodec.codec) Examples.on_river ∅)
  ∧ run (H := RefCodec.codec) (pause_by_buttons 30) Examples.on_river
      (autoSave (H := RefCodec.codec) Examples.on_river ∅)
    = Next Examples.on_river (autoSave (H := RefCodec.codec) Examples.on_river ∅)
  ∧ run (H := RefCodec.codec) (pause_by_keys 30) Examples.on_river
      (autoSave (H := RefCodec.codec) Examples.on_river ∅)
    = Next Examples.on_river (autoSave (H := RefCodec.codec) Examples.on_river ∅).
Proof.
  split; [exact on_river_steady |]. split; [reflexivity |].
  split; [exact on_river_mirrored |].
  exact (PauseFacts.pause_then_resume_changes_nothing (H := RefCodec.codec)
           Examples.on_river (autoSave (H := RefCodec.codec) Examples.on_river ∅) 30
           on_river_steady eq_refl on_river_mirrored).
Defined.

Lemma river_paused_steady : steady MoreExamples.river_paused.
Proof.
  unfold steady. simpl. repeat split; try done. right. done.
Defined.

(** X6 on the paused page: Ctrl+Enter. *)
Lemma paused_session_is_frozen_witness :
  steady MoreExamples.river_paused
  ∧ testState MoreExamples.river_paused = paused
  ∧ ∃ s', step (H := RefCodec.codec) (KeyDown "Enter" true) MoreExamples.river_paused ∅
          = Next s' (autoSave (H := RefCodec.codec) s' ∅)
          ∧ snapshot s' = snapshot MoreExamples.river_paused
          ∧ currentResponse s' = currentResponse MoreExamples.river_paused
          ∧ (testState s' = paused ∨ testState s' = running).
Proof.
  split; [exact river_paused_steady |]. split; [reflexivity |].
  exact (PauseFacts.paused_session_is_frozen (H := RefCodec.codec)
           (KeyDown "Enter" true) MoreExamples.river_paused ∅
           river_paused_steady eq_refl).
Defined.

(** X7 on an entry of another page. *)
Lemma only_the_progress_entry_is_touched_witness :
  "srt-progress" ≠ key
  ∧ match store_of (step (H := RefCodec.codec) (KeyDown "Enter" true) Examples.on_river
                      {[ "srt-progress" := "{}" ]}) with
    | Some st' => st' !! "srt-progress" = ({[ "srt-progress" := "{}" ]} : Storage) !! "srt-progress"
    | None => True
    end.
Proof.
  assert (N : "srt-progress" ≠ key) by discriminate.
  split; [exact N |].
  exact (proj1 (ProgressFacts.only_the_progress_entry_is_touched (H := RefCodec.codec)
                  "srt-progress" N)
           (KeyDown "Enter" true) Examples.on_river {[ "srt-progress" := "{}" ]}).
Defined.

(** X8 on a session of one word that has just started. *)
Lemma progress_store_contract_witness :
  testState Examples.on_fire = running
  ∧ round_trips (H := RefCodec.codec) (TestProgress_to_json (snapshot Examples.on_fire))
  ∧ ∃ raw, loadSavedProgress (H := RefCodec.codec)
             (autoSave (H := RefCodec.codec) Examples.on_fire ∅) = LoadedTrue raw
           ∧ typed raw = Some (snapshot Examples.on_fire).
Proof.
  assert (R : round_trips (H := RefCodec.codec)
                (TestProgress_to_json (snapshot Examples.on_fire)))
    by (split; reflexivity).
  split; [reflexivity |]. split; [exact R |].
  exact (proj1 (ProgressFacts.progress_store_contract (H := RefCodec.codec)
                  Examples.on_fire ∅ eq_refl R)).
Defined.

(** X9 on the stored progress of the second of two words, with the prompt
    source down. *)
Lemma declining_resume_starts_afresh_witness :
  loadSavedProgress (H := RefCodec.codec)
    (autoSave (H := RefCodec.codec) Examples.on_river ∅)
  = LoadedTrue MoreExamples.river_raw
  ∧ typed MoreExamples.river_raw = Some (snapshot Examples.on_river)
  ∧ ∀ s' st',
      startTest (H := RefCodec.codec) false (FetchRejected "offline") init
        (autoSave (H := RefCodec.codec) Examples.on_river ∅) = Some (s', st') ->
      st' = delete key (autoSave (H := RefCodec.codec) Examples.on_river ∅).
Proof.
  assert (L : loadSavedProgress (H := RefCodec.codec)
                (autoSave (H := RefCodec.codec) Examples.on_river ∅)
              = LoadedTrue MoreExamples.river_raw) by reflexivity.
  assert (T : typed MoreExamples.river_raw = Some (snapshot Examples.on_river))
    by reflexivity.
  split; [exact L |]. split; [exact T |].
  exact (proj1 (ProgressFacts.declining_resume_starts_afresh (H := RefCodec.codec)
                  (FetchRejected "offline") init
                  (autoSave (H := RefCodec.codec) Examples.on_river ∅)
                  MoreExamples.river_raw (snapshot Examples.on_river) L T)).
Defined.

(** X17 on a source that first answers with no words. *)
Lemma failed_start_can_be_repeated_witness :
  testState init = ready
  ∧ isSaving init = false
  ∧ fetched_words Examples.empty_fetched = inl "Invalid test data received"
  ∧ step (H := RefCodec.codec) (ClickStart false Examples.empty_fetched) init ∅
    = Next MoreExamples.start_failed ∅
  ∧ testState MoreExamples.start_failed = ready
  ∧ fetched_words Examples.fire_fetched = inr [JStr "Fire"]
  ∧ strings_of_json [JStr "Fire"] = Some ["Fire"]
  ∧ error MoreExamples.start_failed
    = Some ("Could not start the test: " ++ "Invalid test data received")
  ∧ isSaving MoreExamples.start_failed = false
  ∧ step (H := RefCodec.codec) ClickDismiss MoreExamples.start_failed ∅
    = Next (setError None MoreExamples.start_failed) ∅
  ∧ ∃ s2, step (H := RefCodec.codec) (ClickStart false Examples.fire_fetched)
            MoreExamples.start_failed ∅
          = Next s2 (autoSave (H := RefCodec.codec) s2 ∅)
          ∧ testState s2 = running ∧ words s2 = ["Fire"]
          ∧ currentWordIndex s2 = 0 ∧ allResponses s2 = [] ∧ timeLeft s2 = 15
          ∧ currentResponse s2 = "" ∧ error s2 = None ∧ timerActive s2 = true.
Proof.
  assert (St : step (H := RefCodec.codec) (ClickStart false Examples.empty_fetched) init ∅
               = Next MoreExamples.start_failed ∅) by reflexivity.
  assert (F : fetched_words Examples.empty_fetched = inl "Invalid test data received")
    by reflexivity.
  assert (G : fetched_words Examples.fire_fetched = inr [JStr "Fire"]) by reflexivity.
  assert (W : strings_of_json [JStr "Fire"] = Some ["Fire"]) by reflexivity.
  split; [reflexivity |]. split; [reflexivity |]. split; [exact F |].
  split; [exact St |]. split; [reflexivity |]. split; [exact G |]. split; [exact W |].
  exact (StartAgainFacts.failed_start_can_be_repeated (H := RefCodec.codec)
           false false Examples.empty_fetched Examples.fire_fetched
           init MoreExamples.start_failed ∅ ∅ "Invalid test data received"
           [JStr "Fire"] ["Fire"] eq_refl eq_refl F St eq_refl G W).
Defined.


End SampleRuns.

Module SrtSampleRuns.
Import Srt SrtMore.

(** X12 while a save is in flight: Ctrl+Enter on a full answer. *)
Lemma srt_nothing_captured_while_saving_witness :
  isSaving MoreExamples.saving_answer = true
  ∧ ∃ s', step (Examples.ctrl_enter 5000) MoreExamples.saving_answer = Next s'
          ∧ allResponses s' = allResponses MoreExamples.saving_answer
          ∧ currentSituationIndex s' = currentSituationIndex MoreExamples.saving_answer
          ∧ situations s' = situations MoreExamples.saving_answer
          ∧ isSaving s' = true.
Proof.
  split; [reflexivity |].
  exact (SrtKeepFacts.srt_nothing_captured_while_saving (Examples.ctrl_enter 5000)
           MoreExamples.saving_answer eq_refl).
Defined.




End SrtSampleRuns.

Module OldSampleRuns.
Import OldWat OldWatRun.

Lemma old_started_under_way : under_way MoreExamples.old_started.
Proof.
  unfold under_way. simpl. repeat split; try done; unfold JS.len; simpl; lia.
Defined.

Lemma old_last_second_under_way : under_way MoreExamples.old_last_second.
Proof.
  unfold under_way. simpl. repeat split; try done; unfold JS.len; simpl; lia.
Defined.

(** X15 on a session of two words: a second, some typing, a second. *)
Lemma old_page_moves_on_by_the_clock_only_witness :
  under_way MoreExamples.old_started
  ∧ match run [Tick; Input "truck"; Tick] MoreExamples.old_started with
    | Next s' =>
        under_way s' ∧ words s' = words MoreExamples.old_started
        ∧ elapsed s' = elapsed MoreExamples.old_started + ticks [Tick; Input "truck"; Tick]
    | Submit _ payload =>
        15 * JS.len (words MoreExamples.old_started)
        <= elapsed MoreExamples.old_started + ticks [Tick; Input "truck"; Tick]
        ∧ map word payload = map Some (words MoreExamples.old_started)
        ∧ length payload = length (words MoreExamples.old_started)
    end.
Proof.
  split; [exact old_started_under_way |].
  exact (OldWatFacts.old_page_moves_on_by_the_clock_only [Tick; Input "truck"; Tick]
           MoreExamples.old_started old_started_under_way).
Defined.

(** X16 on the last second of a session of one word, with the submission
    service down. *)
Lemma old_page_finishes_witness :
  under_way MoreExamples.old_last_second
  ∧ timeLeft MoreExamples.old_last_second = 1
  ∧ currentWordIndex MoreExamples.old_last_second
    = JS.len (words MoreExamples.old_last_second) - 1
  ∧ ∃ s', step Tick MoreExamples.old_last_second
          = Submit s' (allResponses MoreExamples.old_last_second
                       ++ [mkResponse (JS.at_index (words MoreExamples.old_last_second)
                                         (currentWordIndex MoreExamples.old_last_second))
                             (currentResponse MoreExamples.old_last_second)])%list
          ∧ testState (saveSessionAndFinish (Wat.SaveError "offline") s') = finished.
Proof.
  split; [exact old_last_second_under_way |]. split; [reflexivity |].
  split; [reflexivity |].
  destruct (OldWatFacts.old_page_finishes_whatever_the_save_comes_to
              MoreExamples.old_last_second (Wat.SaveError "offline")
              old_last_second_under_way eq_refl eq_refl) as (s' & E & F & _).
  exact (ex_intro _ s' (conj E F)).
Defined.

End OldSampleRuns.

Module ServiceSampleRuns.

(** X10 on a submission service that answers at the third call. *)
Lemma save_chain_with_any_service_witness :
  ∃ outs,
    Wat.log (Wat.saveSessionAndFinish Examples.third_time false Examples.river_payload 0
               (Wat.mkSys Examples.river_done ∅ []))
    = ([] ++ WatMore.posts Examples.river_payload outs)%list
    ∧ (1 <= length outs <= 3)%nat
    ∧ WatMore.answers Examples.third_time Examples.river_payload 0 outs
    ∧ WatMore.failed_before_last outs
    ∧ WatMore.chain_end Examples.river_done ∅ outs
        (Wat.saveSessionAndFinish Examples.third_time false Examples.river_payload 0
           (Wat.mkSys Examples.river_done ∅ []))
    ∧ (∀ m, last outs = Some (Wat.SaveError m) -> length outs = 3%nat).
Proof.
  exact (ChainFacts.save_chain_with_any_service Examples.third_time
           Examples.river_payload (Wat.mkSys Examples.river_done ∅ [])).
Defined.

(** X11 on an analysis service that fails once and then answers. *)
Lemma analysis_chain_with_any_service_witness :
  Analysis.sessionId (Analysis.ui MoreExamples.saved_session) = Some 42
  ∧ 42 ≠ 0
  ∧ ∃ outs,
      Analysis.log (Analysis.handleAnalysis MoreExamples.second_time 0
                      MoreExamples.saved_session)
      = (Analysis.log MoreExamples.saved_session ++ Analysis.posts 42 outs)%list
      ∧ Analysis.chain_end outs
          (Analysis.ui (Analysis.handleAnalysis MoreExamples.second_time 0
                          MoreExamples.saved_session)).
Proof.
  assert (N : 42 ≠ 0) by lia.
  split; [reflexivity |]. split; [exact N |].
  destruct (proj2 (AnalysisFacts.analysis_chain_with_any_service
                     MoreExamples.second_time MoreExamples.saved_session)
              42 eq_refl N) as (outs & L & _ & C & _).
  exact (ex_intro _ outs (conj L C)).
Defined.

End ServiceSampleRuns.
